(** * VozNote: recording-to-note pipeline, note store and search

    A shallow embedding of the logic of the VozNote React application
    ([App.tsx], its two [voznote-ai] variants, [types.ts] and the Gemini
    service wrappers [services/ai.ts], [services/geminiService.ts]).

    Conventions of the embedding:
    - a JavaScript string is a [string] whose characters are the code units
      U+0000..U+00FF (the Latin-1 range); [toLowerCase] and [trim] are the
      ECMAScript operations restricted to that range;
    - a JavaScript number that holds a nonnegative integer (the seconds
      counter, an array length) is an [N];
    - React state cells and refs are the fields of one record, updated by
      explicit state passing; an [async] function is run to completion, the
      awaited collaborators (microphone, Gemini, clock, storage) being
      arguments of the model. *)

From Stdlib Require Import String Ascii List NArith Arith Bool Lia.
Import ListNotations.
Local Open Scope string_scope.

(* ===================================================================== *)
(** ** JavaScript primitives used by the application                      *)
(* ===================================================================== *)

Module JS.

(** Code unit of a character. *)
Definition code (c : ascii) : N := N_of_ascii c.

(** [String.prototype.toLowerCase] on one Latin-1 code unit: A..Z and
    the accented capitals U+00C0..U+00DE (U+00D7, the multiplication
    sign, apart) move up by 32. *)
Definition toLowerChar (c : ascii) : ascii :=
  let n := code c in
  if ((65 <=? n) && (n <=? 90))%N
     || ((192 <=? n) && (n <=? 222) && negb (n =? 215))%N
  then ascii_of_N (n + 32)
  else c.

Fixpoint toLowerCase (s : string) : string :=
  match s with
  | EmptyString => EmptyString
  | String c r => String (toLowerChar c) (toLowerCase r)
  end.

(** ECMAScript WhiteSpace and LineTerminator code units below U+0100:
    TAB, LF, VT, FF, CR, SP and NBSP. *)
Definition isWhiteSpace (c : ascii) : bool :=
  let n := code c in
  ((n =? 9) || (n =? 10) || (n =? 11) || (n =? 12) || (n =? 13)
   || (n =? 32) || (n =? 160))%N.

Fixpoint trimStart (s : string) : string :=
  match s with
  | EmptyString => EmptyString
  | String c r => if isWhiteSpace c then trimStart r else s
  end.

(** [trimEnd] drops the trailing white space: a character is kept when
    it is not white space or something is kept after it. *)
Fixpoint trimEnd (s : string) : string :=
  match s with
  | EmptyString => EmptyString
  | String c r =>
      match trimEnd r with
      | EmptyString => if isWhiteSpace c then EmptyString
                       else String c EmptyString
      | String d r' => String c (String d r')
      end
  end.

Definition trim (s : string) : string := trimEnd (trimStart s).

(** [p] is a prefix of [s]. *)
Fixpoint startsWith (s p : string) {struct p} : bool :=
  match p, s with
  | EmptyString, _ => true
  | String _ _, EmptyString => false
  | String a p', String b s' => Ascii.eqb a b && startsWith s' p'
  end.

(** [String.prototype.includes]: [q] occurs in [s] as a substring. *)
Fixpoint includes (s q : string) : bool :=
  startsWith s q ||
  match s with
  | EmptyString => false
  | String _ s' => includes s' q
  end.

(** The filler of [padStart]: the first [n] characters of the fill
    string [f] repeated; [cur] is what is left of the current copy. *)
Fixpoint filler (n : nat) (cur f : string) : string :=
  match n with
  | O => EmptyString
  | S k =>
      match cur with
      | String c r => String c (filler k r f)
      | EmptyString =>
          match f with
          | String c r => String c (filler k r f)
          | EmptyString => EmptyString
          end
      end
  end.

(** [String.prototype.padStart(targetLength, fillString)]. *)
Definition padStart (s : string) (targetLength : nat) (f : string) : string :=
  if Nat.leb targetLength (String.length s) then s
  else if String.eqb f "" then s
  else filler (targetLength - String.length s) f f ++ s.

Definition digitChar (d : N) : ascii := ascii_of_N (48 + d).

(** Decimal digits of [n], most significant first, pushed in front of
    [acc]; one digit per unit of fuel. *)
Fixpoint toString_aux (fuel : nat) (n : N) (acc : string) : string :=
  match fuel with
  | O => acc
  | S f =>
      let acc' := String (digitChar (n mod 10)) acc in
      if (n / 10 =? 0)%N then acc' else toString_aux f (n / 10) acc'
  end.

(** [Number.prototype.toString] on a nonnegative integer. The binary
    size of [n] bounds the number of its decimal digits. *)
Definition toString (n : N) : string :=
  toString_aux (S (N.size_nat n)) n EmptyString.

(** [x || ""] on a string: the empty string is falsy. *)
Definition truthy (s : string) : bool := negb (String.eqb s "").

End JS.

(* ===================================================================== *)
(** ** Data model ([types.ts])                                            *)
(* ===================================================================== *)

Inductive AppView : Type := LIST | RECORD | EDIT.

Record Note : Type := {
  id : string;
  title : string;
  date : string;
  durationFormatted : string;
  transcription : string;
  summary : string;
  tags : list string
}.

Inductive ProcessingStatus : Type :=
  IDLE | TRANSCRIBING | SUMMARIZING | COMPLETED | ERROR.

(** A [Blob]: its bytes and its MIME type; [size] is [blob.size]. *)
Record Blob : Type := { data : list Byte.byte; type : string }.

Definition size (b : Blob) : N := N.of_nat (List.length (data b)).

(** [new Blob(parts, { type })] concatenates the parts in order. *)
Definition newBlob (parts : list Blob) (ty : string) : Blob :=
  {| data := concat (map data parts); type := ty |}.

(** What the code throws. The messages of the application's own [Error]s
    are fixed texts, named here by a constructor each; [Thrown] is an
    error raised by a collaborator (FileReader, the Gemini SDK), whose
    [message] may be missing. *)
Inductive JsError : Type :=
| KeyMissingTranscribe   (* ai.ts: "Chave de API nao configurada no ambiente." *)
| KeyMissingSummarize    (* ai.ts: "Chave de API nao configurada." *)
| KeyMissingApp          (* App.tsx: "API_KEY nao encontrada. ..." *)
| TranscriptionFailed    (* "Falha na transcricao. ..." *)
| SummarizationFailed    (* "Falha ao gerar o resumo." *)
| JsonSyntaxError        (* the SyntaxError of JSON.parse *)
| Thrown (message : option string).

Inductive result (A : Type) : Type :=
| Ok (a : A)
| Throw (e : JsError).
Arguments Ok {A} a.
Arguments Throw {A} e.

(** [error.message?.includes("API_KEY")]: of the fixed texts only the one
    of App.tsx contains the word. *)
Definition message_includes_API_KEY (e : JsError) : bool :=
  match e with
  | KeyMissingApp => true
  | Thrown (Some m) => JS.includes m "API_KEY"
  | _ => false
  end.

(* ===================================================================== *)
(** ** The Gemini collaborator                                            *)
(* ===================================================================== *)

(** The two requests the application sends; the prompts are constant. *)
Inductive Request : Type :=
| TranscribeRequest (mimeType : string) (base64 : string)
| SummarizeRequest (text : string).

(** [response.text] is [string | undefined]. *)
Record Response : Type := { text : option string }.

(** The environment of the service wrappers: [process.env.API_KEY], the
    FileReader behind [blobToBase64], and the SDK
    ([new GoogleGenAI({ apiKey })] followed by
    [ai.models.generateContent]). *)
Record Env : Type := {
  API_KEY : option string;
  blobToBase64 : Blob -> result string;
  generateContent : option string -> Request -> result Response
}.

(** [!apiKey]: [undefined] and the empty string are falsy. *)
Definition keyMissing (k : option string) : bool :=
  match k with
  | None => true
  | Some s => negb (JS.truthy s)
  end.

(** [response.text || ""]. *)
Definition textOrEmpty (r : Response) : string :=
  match text r with
  | Some t => if JS.truthy t then t else ""
  | None => ""
  end.

(** [x || 'audio/webm'] on a MIME type. *)
Definition orWebm (ty : string) : string :=
  if JS.truthy ty then ty else "audio/webm".

(** *** [services/ai.ts] *)
Module Ai.

Definition transcribeAudio (env : Env) (audioBlob : Blob) : result string :=
  let body :=
    if keyMissing (API_KEY env) then Throw KeyMissingTranscribe
    else
      match blobToBase64 env audioBlob with
      | Throw e => Throw e
      | Ok base64Data =>
          let mimeType := orWebm (type audioBlob) in
          match generateContent env (API_KEY env)
                  (TranscribeRequest mimeType base64Data) with
          | Throw e => Throw e
          | Ok response => Ok (textOrEmpty response)
          end
      end in
  match body with
  | Ok t => Ok t
  | Throw error =>
      if message_includes_API_KEY error then Throw error
      else Throw TranscriptionFailed
  end.

Definition summarizeText (env : Env) (txt : string) : result string :=
  let body :=
    if keyMissing (API_KEY env) then Throw KeyMissingSummarize
    else
      match generateContent env (API_KEY env) (SummarizeRequest txt) with
      | Throw e => Throw e
      | Ok response => Ok (textOrEmpty response)
      end in
  match body with
  | Ok t => Ok t
  | Throw _ => Throw SummarizationFailed
  end.

End Ai.

(** *** [voznote-ai/services/geminiService.ts] *)
Module GeminiService.

Definition transcribeAudio (env : Env) (audioBlob : Blob) : result string :=
  let body :=
    match blobToBase64 env audioBlob with
    | Throw e => Throw e
    | Ok base64Data =>
        match generateContent env (API_KEY env)
                (TranscribeRequest (orWebm (type audioBlob)) base64Data) with
        | Throw e => Throw e
        | Ok response => Ok (textOrEmpty response)
        end
    end in
  match body with
  | Ok t => Ok t
  | Throw _ => Throw TranscriptionFailed
  end.

Definition summarizeText (env : Env) (txt : string) : result string :=
  let body :=
    match generateContent env (API_KEY env) (SummarizeRequest txt) with
    | Throw e => Throw e
    | Ok response => Ok (textOrEmpty response)
    end in
  match body with
  | Ok t => Ok t
  | Throw _ => Throw SummarizationFailed
  end.

End GeminiService.

(* ===================================================================== *)
(** ** The component's state                                              *)
(* ===================================================================== *)

(** A [MediaRecorder]: the stream it records and the [mimeType] option it
    was built with. Streams and interval timers are named by numbers. *)
Record MediaRecorder : Type := {
  stream : nat;
  options : option string
}.

(** The texts shown with [alert]. *)
Inductive Alert : Type :=
| MicrophoneAlert
| LongRecordingAlert
| ProcessingAlert (e : JsError).

(** The [useState] cells, the [useRef] cells and the part of the browser
    the component acts on: the running [setInterval] timers, the streams
    whose tracks are live, the alerts shown so far. [statusLog] records
    every call of [setProcessingStatus], oldest first. *)
Record AppState : Type := {
  view : AppView;
  notes : list Note;
  activeNote : option Note;
  tagInput : string;
  isRecording : bool;
  recordingDuration : N;
  processingStatus : ProcessingStatus;
  mediaRecorderRef : option MediaRecorder;
  audioChunksRef : list Blob;
  timerRef : option nat;
  mimeTypeRef : string;
  intervals : list nat;
  nextTimer : nat;
  liveStreams : list nat;
  nextStream : nat;
  alerts : list Alert;
  statusLog : list ProcessingStatus
}.

Definition set_view (v : AppView) (st : AppState) : AppState :=
  Build_AppState
    v (notes st) (activeNote st) (tagInput st) (isRecording st)
    (recordingDuration st) (processingStatus st) (mediaRecorderRef st)
    (audioChunksRef st) (timerRef st) (mimeTypeRef st) (intervals st)
    (nextTimer st) (liveStreams st) (nextStream st) (alerts st)
    (statusLog st).

Definition set_notes (v : list Note) (st : AppState) : AppState :=
  Build_AppState
    (view st) v (activeNote st) (tagInput st) (isRecording st)
    (recordingDuration st) (processingStatus st) (mediaRecorderRef st)
    (audioChunksRef st) (timerRef st) (mimeTypeRef st) (intervals st)
    (nextTimer st) (liveStreams st) (nextStream st) (alerts st)
    (statusLog st).

Definition set_activeNote (v : option Note) (st : AppState) : AppState :=
  Build_AppState
    (view st) (notes st) v (tagInput st) (isRecording st)
    (recordingDuration st) (processingStatus st) (mediaRecorderRef st)
    (audioChunksRef st) (timerRef st) (mimeTypeRef st) (intervals st)
    (nextTimer st) (liveStreams st) (nextStream st) (alerts st)
    (statusLog st).

Definition set_tagInput (v : string) (st : AppState) : AppState :=
  Build_AppState
    (view st) (notes st) (activeNote st) v (isRecording st)
    (recordingDuration st) (processingStatus st) (mediaRecorderRef st)
    (audioChunksRef st) (timerRef st) (mimeTypeRef st) (intervals st)
    (nextTimer st) (liveStreams st) (nextStream st) (alerts st)
    (statusLog st).

Definition set_isRecording (v : bool) (st : AppState) : AppState :=
  Build_AppState
    (view st) (notes st) (activeNote st) (tagInput st) v
    (recordingDuration st) (processingStatus st) (mediaRecorderRef st)
    (audioChunksRef st) (timerRef st) (mimeTypeRef st) (intervals st)
    (nextTimer st) (liveStreams st) (nextStream st) (alerts st)
    (statusLog st).

Definition set_recordingDuration (v : N) (st : AppState) : AppState :=
  Build_AppState
    (view st) (notes st) (activeNote st) (tagInput st) (isRecording st) v
    (processingStatus st) (mediaRecorderRef st) (audioChunksRef st)
    (timerRef st) (mimeTypeRef st) (intervals st) (nextTimer st)
    (liveStreams st) (nextStream st) (alerts st) (statusLog st).

Definition set_processingStatus (v : ProcessingStatus) (st : AppState) : AppState :=
  Build_AppState
    (view st) (notes st) (activeNote st) (tagInput st) (isRecording st)
    (recordingDuration st) v (mediaRecorderRef st) (audioChunksRef st)
    (timerRef st) (mimeTypeRef st) (intervals st) (nextTimer st)
    (liveStreams st) (nextStream st) (alerts st) (statusLog st).

Definition set_mediaRecorderRef (v : option MediaRecorder) (st : AppState) : AppState :=
  Build_AppState
    (view st) (notes st) (activeNote st) (tagInput st) (isRecording st)
    (recordingDuration st) (processingStatus st) v (audioChunksRef st)
    (timerRef st) (mimeTypeRef st) (intervals st) (nextTimer st)
    (liveStreams st) (nextStream st) (alerts st) (statusLog st).

Definition set_audioChunksRef (v : list Blob) (st : AppState) : AppState :=
  Build_AppState
    (view st) (notes st) (activeNote st) (tagInput st) (isRecording st)
    (recordingDuration st) (processingStatus st) (mediaRecorderRef st) v
    (timerRef st) (mimeTypeRef st) (intervals st) (nextTimer st)
    (liveStreams st) (nextStream st) (alerts st) (statusLog st).

Definition set_timerRef (v : option nat) (st : AppState) : AppState :=
  Build_AppState
    (view st) (notes st) (activeNote st) (tagInput st) (isRecording st)
    (recordingDuration st) (processingStatus st) (mediaRecorderRef st)
    (audioChunksRef st) v (mimeTypeRef st) (intervals st) (nextTimer st)
    (liveStreams st) (nextStream st) (alerts st) (statusLog st).

Definition set_mimeTypeRef (v : string) (st : AppState) : AppState :=
  Build_AppState
    (view st) (notes st) (activeNote st) (tagInput st) (isRecording st)
    (recordingDuration st) (processingStatus st) (mediaRecorderRef st)
    (audioChunksRef st) (timerRef st) v (intervals st) (nextTimer st)
    (liveStreams st) (nextStream st) (alerts st) (statusLog st).

Definition set_intervals (v : list nat) (st : AppState) : AppState :=
  Build_AppState
    (view st) (notes st) (activeNote st) (tagInput st) (isRecording st)
    (recordingDuration st) (processingStatus st) (mediaRecorderRef st)
    (audioChunksRef st) (timerRef st) (mimeTypeRef st) v (nextTimer st)
    (liveStreams st) (nextStream st) (alerts st) (statusLog st).

Definition set_nextTimer (v : nat) (st : AppState) : AppState :=
  Build_AppState
    (view st) (notes st) (activeNote st) (tagInput st) (isRecording st)
    (recordingDuration st) (processingStatus st) (mediaRecorderRef st)
    (audioChunksRef st) (timerRef st) (mimeTypeRef st) (intervals st) v
    (liveStreams st) (nextStream st) (alerts st) (statusLog st).

Definition set_liveStreams (v : list nat) (st : AppState) : AppState :=
  Build_AppState
    (view st) (notes st) (activeNote st) (tagInput st) (isRecording st)
    (recordingDuration st) (processingStatus st) (mediaRecorderRef st)
    (audioChunksRef st) (timerRef st) (mimeTypeRef st) (intervals st)
    (nextTimer st) v (nextStream st) (alerts st) (statusLog st).

Definition set_nextStream (v : nat) (st : AppState) : AppState :=
  Build_AppState
    (view st) (notes st) (activeNote st) (tagInput st) (isRecording st)
    (recordingDuration st) (processingStatus st) (mediaRecorderRef st)
    (audioChunksRef st) (timerRef st) (mimeTypeRef st) (intervals st)
    (nextTimer st) (liveStreams st) v (alerts st) (statusLog st).

Definition set_alerts (v : list Alert) (st : AppState) : AppState :=
  Build_AppState
    (view st) (notes st) (activeNote st) (tagInput st) (isRecording st)
    (recordingDuration st) (processingStatus st) (mediaRecorderRef st)
    (audioChunksRef st) (timerRef st) (mimeTypeRef st) (intervals st)
    (nextTimer st) (liveStreams st) (nextStream st) v (statusLog st).

Definition set_statusLog (v : list ProcessingStatus) (st : AppState) : AppState :=
  Build_AppState
    (view st) (notes st) (activeNote st) (tagInput st) (isRecording st)
    (recordingDuration st) (processingStatus st) (mediaRecorderRef st)
    (audioChunksRef st) (timerRef st) (mimeTypeRef st) (intervals st)
    (nextTimer st) (liveStreams st) (nextStream st) (alerts st) v.

(** The state of a freshly mounted component. *)
Definition initialState : AppState :=
  {| view := LIST; notes := []; activeNote := None; tagInput := "";
     isRecording := false; recordingDuration := 0;
     processingStatus := IDLE;
     mediaRecorderRef := None; audioChunksRef := []; timerRef := None;
     mimeTypeRef := "";
     intervals := []; nextTimer := 1; liveStreams := []; nextStream := 1;
     alerts := []; statusLog := [] |}.

Definition setProcessingStatus (s : ProcessingStatus) (st : AppState) : AppState :=
  set_statusLog (statusLog st ++ [s]) (set_processingStatus s st).

Definition alert (a : Alert) (st : AppState) : AppState :=
  set_alerts (alerts st ++ [a]) st.

(** [clearInterval(t)]. *)
Definition clearInterval (t : nat) (st : AppState) : AppState :=
  set_intervals (List.filter (fun u => negb (Nat.eqb u t)) (intervals st)) st.

(** [stream.getTracks().forEach(track => track.stop())]. *)
Definition stopTracks (r : MediaRecorder) (st : AppState) : AppState :=
  set_liveStreams
    (List.filter (fun u => negb (Nat.eqb u (stream r))) (liveStreams st)) st.

(** *** Stateful code that may throw

    A computation takes the state and gives the state it leaves behind
    with either a value or the error thrown: what was written before a
    [throw] stays written. *)
Definition M (A : Type) : Type := AppState -> AppState * result A.

Definition ret {A} (a : A) : M A := fun st => (st, Ok a).

Definition bind {A B} (c : M A) (k : A -> M B) : M B :=
  fun st =>
    match c st with
    | (st', Ok a) => k a st'
    | (st', Throw e) => (st', Throw e)
    end.

Definition throw {A} (e : JsError) : M A := fun st => (st, Throw e).

(** A state update. *)
Definition act (f : AppState -> AppState) : M unit := fun st => (f st, Ok tt).

(** Reading a state cell. *)
Definition gets {A} (f : AppState -> A) : M A := fun st => (st, Ok (f st)).

(** [await] of a collaborator's promise that has settled as [r]. *)
Definition await {A} (r : result A) : M A := fun st => (st, r).

(** [try { body } catch (e) { handler e } finally { final }]. *)
Definition try_catch_finally {A} (body : M A) (handler : JsError -> M A)
    (final : M unit) : M A :=
  fun st =>
    let '(st1, r1) :=
      match body st with
      | (st', Ok a) => (st', Ok a)
      | (st', Throw e) => handler e st'
      end in
    match final st1 with
    | (st2, Ok _) => (st2, r1)
    | (st2, Throw e) => (st2, Throw e)
    end.

Declare Scope js_scope.
Delimit Scope js_scope with js.
Notation "x <- c ;; k" := (bind c (fun x => k))
  (at level 61, c at next level, right associativity) : js_scope.
Notation "c ;; k" := (bind c (fun _ => k))
  (at level 61, right associativity) : js_scope.

(** The readings of the clock a draft takes: [Date.now().toString()],
    [toLocaleTimeString('pt-BR', ...)] and [toLocaleDateString('pt-BR')]. *)
Record Clock : Type := {
  nowString : string;
  timeString : string;
  dateString : string
}.

(** The Latin-1 text "Gravacao " with its cedilla and tilde. *)
Definition gravacao : string :=
  "Grava" ++ String (ascii_of_N 231) (String (ascii_of_N 227) "o ").

(** [{ ...note, tags }]. *)
Definition with_tags (n : Note) (ts : list string) : Note :=
  {| id := id n; title := title n; date := date n;
     durationFormatted := durationFormatted n;
     transcription := transcription n; summary := summary n; tags := ts |}.

(** [formatTime], the same text in App.tsx and in both variants. *)
Definition formatTime (seconds : N) : string :=
  let mins := (seconds / 60)%N in
  let secs := (seconds mod 60)%N in
  JS.padStart (JS.toString mins) 2 "0" ++ ":"
    ++ JS.padStart (JS.toString secs) 2 "0".

(** The updater [saveNote] passes to [setNotes], the same text in App.tsx
    and in both variants: [find] by [id], then [map] or prepend. *)
Definition saveNote_update (active : Note) (prev : list Note) : list Note :=
  match List.find (fun n => String.eqb (id n) (id active)) prev with
  | Some _ =>
      map (fun n => if String.eqb (id n) (id active) then active else n) prev
  | None => active :: prev
  end.

(** The [ondataavailable] handler, the same in App.tsx and both variants:
    a chunk of positive size is pushed on the shared [audioChunksRef]. *)
Definition ondataavailable (chunk : Blob) (st : AppState) : AppState :=
  if (0 <? size chunk)%N
  then set_audioChunksRef (audioChunksRef st ++ [chunk]) st
  else st.

(** Delivery of chunks, in order, to the [ondataavailable] handler. *)
Definition deliver (chunks : list Blob) (st : AppState) : AppState :=
  List.fold_left (fun s c => ondataavailable c s) chunks st.

(** [mediaRecorderRef.current?.stream.getTracks().forEach(t => t.stop())]. *)
Definition releaseTracks (st : AppState) : AppState :=
  match mediaRecorderRef st with
  | Some r => stopTracks r st
  | None => st
  end.

(** The guard of [stopRecording]: [mediaRecorderRef.current && isRecording]. *)
Definition stopGuard (st : AppState) : bool :=
  match mediaRecorderRef st with
  | Some _ => isRecording st
  | None => false
  end.

(* ===================================================================== *)
(** ** [App.tsx]                                                          *)
(* ===================================================================== *)

Module App.

Local Open Scope js_scope.

(** Load notes on mount. [JSON_parse] is the browser's [JSON.parse] at
    the type the code gives its result, [None] when it throws; [saved]
    is [localStorage.getItem('voznotes')]. The [catch] only logs. *)
Definition loadNotes (JSON_parse : string -> option (list Note))
    (saved : option string) : M unit :=
  match saved with
  | Some s =>
      if JS.truthy s then
        match JSON_parse s with
        | Some ns => act (set_notes ns)
        | None => ret tt
        end
      else ret tt
  | None => ret tt
  end.

Definition mimeCandidates : list string :=
  [ "audio/webm;codecs=opus"; "audio/webm"; "audio/mp4"; "audio/aac";
    "audio/ogg" ].

Definition getSupportedMimeType (isTypeSupported : string -> bool) : string :=
  match List.find isTypeSupported mimeCandidates with
  | Some ty => ty
  | None => ""
  end.

(** The callback of the one-second interval [t]; a cleared interval
    does not fire. *)
Definition tick (t : nat) (st : AppState) : AppState :=
  if List.existsb (Nat.eqb t) (intervals st) then
    let next := (recordingDuration st + 1)%N in
    let st' := set_recordingDuration next st in
    if (next =? 3600)%N then alert LongRecordingAlert st' else st'
  else st.

(** [startRecording]; [granted] tells whether [getUserMedia] resolved. *)
Definition startRecording (isTypeSupported : string -> bool)
    (granted : bool) (st : AppState) : AppState :=
  if granted then
    let strm := nextStream st in
    let st := set_nextStream (S strm) (set_liveStreams (strm :: liveStreams st) st) in
    let mimeType := getSupportedMimeType isTypeSupported in
    let st := set_mimeTypeRef mimeType st in
    let opts := if JS.truthy mimeType then Some mimeType else None in
    let mediaRecorder := {| stream := strm; options := opts |} in
    let st := set_mediaRecorderRef (Some mediaRecorder) st in
    let st := set_audioChunksRef [] st in
    let st := set_isRecording true st in
    let st := set_recordingDuration 0%N st in
    let st := set_view RECORD st in
    let t := nextTimer st in
    set_timerRef (Some t)
      (set_nextTimer (S t) (set_intervals (t :: intervals st) st))
  else alert MicrophoneAlert st.

(** [processAudio]. *)
Definition processAudio (env : Env) (clock : Clock) (blob : Blob) : M unit :=
  act (setProcessingStatus TRANSCRIBING) ;;
  try_catch_finally
    ((if keyMissing (API_KEY env) then throw KeyMissingApp else ret tt) ;;
     transcription <- await (Ai.transcribeAudio env blob) ;;
     act (setProcessingStatus SUMMARIZING) ;;
     summary <- await (Ai.summarizeText env transcription) ;;
     act (setProcessingStatus COMPLETED) ;;
     duration <- gets recordingDuration ;;
     let newNote :=
       {| id := nowString clock;
          title := gravacao ++ timeString clock;
          date := dateString clock;
          durationFormatted := formatTime duration;
          transcription := transcription;
          summary := summary;
          tags := [] |} in
     act (set_activeNote (Some newNote)) ;;
     act (set_view EDIT))
    (fun error =>
       act (setProcessingStatus ERROR) ;;
       act (alert (ProcessingAlert error)) ;;
       act (set_view LIST))
    (act (setProcessingStatus IDLE)).

(** The synchronous part of [stopRecording]: the recorder is told to
    stop, the flag and the timer are cleared and [onstop] is installed. *)
Definition stopRecording (st : AppState) : AppState :=
  if stopGuard st then
    let st := set_isRecording false st in
    match timerRef st with
    | Some t => set_timerRef None (clearInterval t st)
    | None => st
    end
  else st.

(** The [onstop] handler [stopRecording] installs. *)
Definition onstop (env : Env) (clock : Clock) : M unit :=
  ty <- gets (fun st => orWebm (mimeTypeRef st)) ;;
  audioBlob <- gets (fun st => newBlob (audioChunksRef st) ty) ;;
  act releaseTracks ;;
  processAudio env clock audioBlob.

(** A press of the stop button run to the end: [stopRecording], the
    chunks the recorder still delivers, then its [stop] event. *)
Definition stopAndProcess (env : Env) (clock : Clock) (late : list Blob)
    (st : AppState) : AppState * result unit :=
  if stopGuard st then
    onstop env clock
      (deliver late (stopRecording st))
  else (st, Ok tt).

Definition saveNote (st : AppState) : AppState :=
  match activeNote st with
  | None => st
  | Some a => set_view LIST (set_notes (saveNote_update a (notes st)) st)
  end.

(** [deleteNote]; [confirmed] is the answer to [confirm]. *)
Definition deleteNote (confirmed : bool) (st : AppState) : AppState :=
  match activeNote st with
  | None => st
  | Some a =>
      if confirmed then
        set_view LIST
          (set_notes
             (List.filter (fun n => negb (String.eqb (id n) (id a))) (notes st))
             st)
      else st
  end.

(** [addTag]. [Array.prototype.includes] compares strings by value. *)
Definition addTag (st : AppState) : AppState :=
  match activeNote st with
  | None => st
  | Some a =>
      if negb (JS.truthy (JS.trim (tagInput st))) then st
      else
        let currentTags := tags a in
        let newTag := JS.trim (tagInput st) in
        let st :=
          if negb (List.existsb (String.eqb newTag) currentTags)
          then set_activeNote (Some (with_tags a (currentTags ++ [newTag]))) st
          else st in
        set_tagInput "" st
  end.

Definition removeTag (tagToRemove : string) (st : AppState) : AppState :=
  match activeNote st with
  | None => st
  | Some a =>
      set_activeNote
        (Some (with_tags a
                 (List.filter (fun t => negb (String.eqb t tagToRemove)) (tags a))))
        st
  end.

End App.

(* ===================================================================== *)
(** ** [voznote-ai/App.tsx]                                               *)
(* ===================================================================== *)

(** The module [./services/ai] this variant imports: its two functions,
    each with the outcome of the awaited promise. *)
Record Services : Type := {
  transcribeAudio : Blob -> result string;
  summarizeText : string -> result string
}.

Module VozNoteAI.

Local Open Scope js_scope.

(** Load notes on mount: [if (saved) setNotes(JSON.parse(saved))], with
    no [try] around it. [saved] is [localStorage.getItem('voznote_data')]. *)
Definition loadNotes (JSON_parse : string -> option (list Note))
    (saved : option string) : M unit :=
  match saved with
  | Some s =>
      if JS.truthy s then
        match JSON_parse s with
        | Some ns => act (set_notes ns)
        | None => throw JsonSyntaxError
        end
      else ret tt
  | None => ret tt
  end.

Definition tick (t : nat) (st : AppState) : AppState :=
  if List.existsb (Nat.eqb t) (intervals st)
  then set_recordingDuration (recordingDuration st + 1)%N st
  else st.

Definition startRecording (granted : bool) (st : AppState) : AppState :=
  if granted then
    let strm := nextStream st in
    let st := set_nextStream (S strm) (set_liveStreams (strm :: liveStreams st) st) in
    let mediaRecorder := {| stream := strm; options := None |} in
    let st := set_mediaRecorderRef (Some mediaRecorder) st in
    let st := set_audioChunksRef [] st in
    let st := set_isRecording true st in
    let st := set_recordingDuration 0%N st in
    let st := set_view RECORD st in
    let t := nextTimer st in
    set_timerRef (Some t)
      (set_nextTimer (S t) (set_intervals (t :: intervals st) st))
  else alert MicrophoneAlert st.

Definition processAudio (svc : Services) (clock : Clock) (blob : Blob) : M unit :=
  act (setProcessingStatus TRANSCRIBING) ;;
  try_catch_finally
    (transcription <- await (transcribeAudio svc blob) ;;
     act (setProcessingStatus SUMMARIZING) ;;
     summary <- await (summarizeText svc transcription) ;;
     duration <- gets recordingDuration ;;
     let newNote :=
       {| id := nowString clock;
          title := "Nota de " ++ timeString clock;
          date := dateString clock;
          durationFormatted := formatTime duration;
          transcription := transcription;
          summary := summary;
          tags := [] |} in
     act (set_activeNote (Some newNote)) ;;
     act (set_view EDIT))
    (fun error =>
       act (alert (ProcessingAlert error)) ;;
       act (set_view LIST))
    (act (setProcessingStatus IDLE)).

(** The synchronous part of [stopRecording]; [timerRef] keeps the
    identifier of the cleared interval. *)
Definition stopRecording (st : AppState) : AppState :=
  if stopGuard st then
    let st := set_isRecording false st in
    match timerRef st with
    | Some t => clearInterval t st
    | None => st
    end
  else st.

Definition onstop (svc : Services) (clock : Clock) : M unit :=
  audioBlob <- gets (fun st => newBlob (audioChunksRef st) "audio/webm") ;;
  act releaseTracks ;;
  processAudio svc clock audioBlob.

Definition stopAndProcess (svc : Services) (clock : Clock) (late : list Blob)
    (st : AppState) : AppState * result unit :=
  if stopGuard st then
    onstop svc clock
      (deliver late (stopRecording st))
  else (st, Ok tt).

Definition saveNote (st : AppState) : AppState :=
  match activeNote st with
  | None => st
  | Some a => set_view LIST (set_notes (saveNote_update a (notes st)) st)
  end.

(** [filteredNotes]: title, summary and tags are searched. *)
Definition filteredNotes (notes : list Note) (searchQuery : string) : list Note :=
  List.filter
    (fun n =>
       JS.includes (JS.toLowerCase (title n)) (JS.toLowerCase searchQuery)
       || JS.includes (JS.toLowerCase (summary n)) (JS.toLowerCase searchQuery)
       || List.existsb
            (fun t => JS.includes (JS.toLowerCase t) (JS.toLowerCase searchQuery))
            (tags n))
    notes.

End VozNoteAI.

(* ===================================================================== *)
(** ** [voznote-ai (1)/App.tsx]                                           *)
(* ===================================================================== *)

(** This variant has no tag editor; its notes carry one more field, the
    [audioUrl] of the recording, which neither of the two functions below
    reads. *)
Module VozNoteAI1.

Definition loadNotes (JSON_parse : string -> option (list Note))
    (saved : option string) : M unit :=
  match saved with
  | Some s =>
      if JS.truthy s then
        match JSON_parse s with
        | Some ns => act (set_notes ns)
        | None => throw JsonSyntaxError
        end
      else ret tt
  | None => ret tt
  end.

(** [filteredNotes]: only title and summary are searched. *)
Definition filteredNotes (notes : list Note) (searchQuery : string) : list Note :=
  List.filter
    (fun n =>
       JS.includes (JS.toLowerCase (title n)) (JS.toLowerCase searchQuery)
       || JS.includes (JS.toLowerCase (summary n)) (JS.toLowerCase searchQuery))
    notes.

End VozNoteAI1.

(* ===================================================================== *)
(** ** Notions the properties are stated with                            *)
(* ===================================================================== *)

(** The value of a decimal digit, [None] on any other character. *)
Definition digitValue (c : ascii) : option N :=
  let n := JS.code c in
  if ((48 <=? n) && (n <=? 57))%N then Some (n - 48)%N else None.

Fixpoint decimal_from (acc : N) (s : string) : option N :=
  match s with
  | EmptyString => Some acc
  | String c r =>
      match digitValue c with
      | Some d => decimal_from (acc * 10 + d) r
      | None => None
      end
  end.

(** The number a nonempty string of decimal digits denotes. *)
Definition decimalValue (s : string) : option N :=
  match s with
  | EmptyString => None
  | _ => decimal_from 0 s
  end.

(** A number zero-padded to at least two digits, as the words have it. *)
Definition zeroPad2 (n : N) : string :=
  if (n <? 10)%N then "0" ++ JS.toString n else JS.toString n.

(** The function [saveNote] maps over the store when the id is present. *)
Definition replace_by_id (a n : Note) : Note :=
  if String.eqb (id n) (id a) then a else n.

(** [u] and [q] are the same text up to the case of their letters. *)
Definition equalIgnoringCase (u q : string) : Prop :=
  JS.toLowerCase u = JS.toLowerCase q.

(** [s] contains [q] as a case-insensitive substring: some substring of
    [s] is [q] up to case. *)
Definition containsIgnoringCase (s q : string) : Prop :=
  exists pre u post, s = pre ++ u ++ post /\ equalIgnoringCase u q.

(** The notes a query selects, as the words have it: the query occurs in
    the title, in the summary or in some tag. *)
Definition matchesQuery (q : string) (n : Note) : Prop :=
  containsIgnoringCase (title n) q
  \/ containsIgnoringCase (summary n) q
  \/ exists t, In t (tags n) /\ containsIgnoringCase t q.

(** The same without the tags. *)
Definition matchesTitleOrSummary (q : string) (n : Note) : Prop :=
  containsIgnoringCase (title n) q \/ containsIgnoringCase (summary n) q.

(** [Selects P l r]: [r] is exactly the elements of [l] that satisfy [P],
    in the order of [l]. *)
Inductive Selects {A : Type} (P : A -> Prop) : list A -> list A -> Prop :=
| Selects_nil : Selects P [] []
| Selects_keep x l r : P x -> Selects P l r -> Selects P (x :: l) (x :: r)
| Selects_drop x l r : ~ P x -> Selects P l r -> Selects P (x :: l) r.

(** Every character of [s] is white space (so is the empty string). *)
Fixpoint whitespaceOnly (s : string) : bool :=
  match s with
  | EmptyString => true
  | String c r => JS.isWhiteSpace c && whitespaceOnly r
  end.

(** The tags of the note under edit, empty when there is none. *)
Definition activeTags (st : AppState) : list string :=
  match activeNote st with
  | Some a => tags a
  | None => []
  end.

(** What the tag editor does: a text is typed in the field and added
    with [addTag], or a tag is removed with [removeTag]. *)
Inductive TagOp : Type :=
| TypeAndAdd (input : string)
| Remove (tag : string).

Definition runTagOp (st : AppState) (op : TagOp) : AppState :=
  match op with
  | TypeAndAdd input => App.addTag (set_tagInput input st)
  | Remove tag => App.removeTag tag st
  end.

(** The chunks of positive size, in order. *)
Definition nonEmptyChunks (chunks : list Blob) : list Blob :=
  List.filter (fun c => (0 <? size c)%N) chunks.

(** The sum of the sizes of the chunks. *)
Definition totalSize (chunks : list Blob) : N :=
  List.fold_right (fun c acc => (size c + acc)%N) 0%N chunks.

(* ===================================================================== *)
(** ** Runs of [processAudio] and the status machines                    *)
(* ===================================================================== *)

(** How the awaited calls of one run end: with both texts, with an error
    before a transcript exists (the missing key of App.tsx or a failed
    transcription), or with an error of the summary. *)
Inductive Outcome : Type :=
| Drafted (transcript summaryText : string)
| FailedTranscribing (e : JsError)
| FailedSummarizing (transcript : string) (e : JsError).

(** The outcome of a run of [App.processAudio] in the environment [env]. *)
Definition outcomeOf (env : Env) (blob : Blob) : Outcome :=
  if keyMissing (API_KEY env) then FailedTranscribing KeyMissingApp
  else
    match Ai.transcribeAudio env blob with
    | Throw e => FailedTranscribing e
    | Ok t =>
        match Ai.summarizeText env t with
        | Throw e => FailedSummarizing t e
        | Ok s => Drafted t s
        end
    end.

(** The outcome of a run of [VozNoteAI.processAudio] with services [svc]. *)
Definition outcomeWith (svc : Services) (blob : Blob) : Outcome :=
  match transcribeAudio svc blob with
  | Throw e => FailedTranscribing e
  | Ok t =>
      match summarizeText svc t with
      | Throw e => FailedSummarizing t e
      | Ok s => Drafted t s
      end
  end.

(** The draft a successful run builds. *)
Definition draftNote (label : string) (clock : Clock) (duration : N)
    (t s : string) : Note :=
  {| id := nowString clock;
     title := label ++ timeString clock;
     date := dateString clock;
     durationFormatted := formatTime duration;
     transcription := t;
     summary := s;
     tags := [] |}.

(** The statuses a run of [App.processAudio] sets, in order. *)
Definition statusesOf (o : Outcome) : list ProcessingStatus :=
  match o with
  | Drafted _ _ => [TRANSCRIBING; SUMMARIZING; COMPLETED; IDLE]
  | FailedTranscribing _ => [TRANSCRIBING; ERROR; IDLE]
  | FailedSummarizing _ _ => [TRANSCRIBING; SUMMARIZING; ERROR; IDLE]
  end.

(** The statuses a run of [VozNoteAI.processAudio] sets, in order. *)
Definition variantStatusesOf (o : Outcome) : list ProcessingStatus :=
  match o with
  | Drafted _ _ => [TRANSCRIBING; SUMMARIZING; IDLE]
  | FailedTranscribing _ => [TRANSCRIBING; IDLE]
  | FailedSummarizing _ _ => [TRANSCRIBING; SUMMARIZING; IDLE]
  end.

(** Several [setProcessingStatus] in a row. *)
Definition setStatuses (l : list ProcessingStatus) (st : AppState) : AppState :=
  List.fold_left (fun s p => setProcessingStatus p s) l st.

(** The state a run of [App.processAudio] leaves. *)
Definition afterRun (o : Outcome) (clock : Clock) (st : AppState) : AppState :=
  match o with
  | Drafted t s =>
      setProcessingStatus IDLE
        (set_view EDIT
           (set_activeNote
              (Some (draftNote gravacao clock (recordingDuration st) t s))
              (setStatuses [TRANSCRIBING; SUMMARIZING; COMPLETED] st)))
  | FailedTranscribing e =>
      setProcessingStatus IDLE
        (set_view LIST
           (alert (ProcessingAlert e) (setStatuses [TRANSCRIBING; ERROR] st)))
  | FailedSummarizing _ e =>
      setProcessingStatus IDLE
        (set_view LIST
           (alert (ProcessingAlert e)
              (setStatuses [TRANSCRIBING; SUMMARIZING; ERROR] st)))
  end.

(** The state a run of [VozNoteAI.processAudio] leaves. *)
Definition afterVariantRun (o : Outcome) (clock : Clock) (st : AppState) : AppState :=
  match o with
  | Drafted t s =>
      setProcessingStatus IDLE
        (set_view EDIT
           (set_activeNote
              (Some (draftNote "Nota de " clock (recordingDuration st) t s))
              (setStatuses [TRANSCRIBING; SUMMARIZING] st)))
  | FailedTranscribing e =>
      setProcessingStatus IDLE
        (set_view LIST (alert (ProcessingAlert e) (setStatuses [TRANSCRIBING] st)))
  | FailedSummarizing _ e =>
      setProcessingStatus IDLE
        (set_view LIST
           (alert (ProcessingAlert e) (setStatuses [TRANSCRIBING; SUMMARIZING] st)))
  end.

(** The session statuses of the specification and its state machine. *)
Inductive SessionStatus : Type :=
  Idle | Capturing | Transcribing | Summarizing | Completed | Error.

Inductive specStep : SessionStatus -> SessionStatus -> Prop :=
| spec_start : specStep Idle Capturing
| spec_captured : specStep Capturing Transcribing
| spec_transcribed : specStep Transcribing Summarizing
| spec_summarized : specStep Summarizing Completed
| spec_completed : specStep Completed Idle
| spec_capture_failed : specStep Capturing Error
| spec_transcription_failed : specStep Transcribing Error
| spec_summary_failed : specStep Summarizing Error
| spec_error_reset : specStep Error Idle.

(** The session status a [ProcessingStatus] stands for; no value of the
    enumeration stands for [Capturing]. *)
Definition sessionStatus (p : ProcessingStatus) : SessionStatus :=
  match p with
  | IDLE => Idle
  | TRANSCRIBING => Transcribing
  | SUMMARIZING => Summarizing
  | COMPLETED => Completed
  | ERROR => Error
  end.

(** The session status read off the component, the capture being the
    time the recording flag is set. *)
Definition sessionStatusOf (st : AppState) : SessionStatus :=
  if isRecording st then Capturing else sessionStatus (processingStatus st).

(** The transitions of [processingStatus] in App.tsx. *)
Inductive statusStep : ProcessingStatus -> ProcessingStatus -> Prop :=
| step_transcribe : statusStep IDLE TRANSCRIBING
| step_summarize : statusStep TRANSCRIBING SUMMARIZING
| step_complete : statusStep SUMMARIZING COMPLETED
| step_completed_reset : statusStep COMPLETED IDLE
| step_transcribe_error : statusStep TRANSCRIBING ERROR
| step_summarize_error : statusStep SUMMARIZING ERROR
| step_error_reset : statusStep ERROR IDLE.

(** The transitions of [processingStatus] in voznote-ai/App.tsx, which
    sets neither [COMPLETED] nor [ERROR]. *)
Inductive variantStep : ProcessingStatus -> ProcessingStatus -> Prop :=
| vstep_transcribe : variantStep IDLE TRANSCRIBING
| vstep_summarize : variantStep TRANSCRIBING SUMMARIZING
| vstep_transcribing_reset : variantStep TRANSCRIBING IDLE
| vstep_summarizing_reset : variantStep SUMMARIZING IDLE.

(** Every two neighbours of the sequence are related by [R]. *)
Fixpoint chain {A : Type} (R : A -> A -> Prop) (l : list A) : Prop :=
  match l with
  | x :: ((y :: _) as r) => R x y /\ chain R r
  | _ => True
  end.

(* ===================================================================== *)
(** ** Sample data                                                       *)
(* ===================================================================== *)

Definition sampleNote (i t sm : string) (tg : list string) : Note :=
  {| id := i; title := t; date := "01/11/2026"; durationFormatted := "00:05";
     transcription := ""; summary := sm; tags := tg |}.

Definition weeklySync : Note := sampleNote "1" "Weekly Sync" "" ["billing"].
Definition standup : Note := sampleNote "2" "Standup" "" [].

(** An environment in which every call succeeds: the key is set, the
    reader gives the text "AAAA" and Gemini answers "hello world" to the
    audio and "Summary: hello" to the transcript. *)
Definition helloEnv : Env :=
  {| API_KEY := Some "key";
     blobToBase64 := fun _ => Ok "AAAA";
     generateContent := fun _ req =>
       match req with
       | TranscribeRequest _ _ => Ok {| text := Some "hello world" |}
       | SummarizeRequest _ => Ok {| text := Some "Summary: hello" |}
       end |}.

(** The same services for the variant. *)
Definition helloServices : Services :=
  {| transcribeAudio := GeminiService.transcribeAudio helloEnv;
     summarizeText := GeminiService.summarizeText helloEnv |}.

(** An environment in which Gemini answers without text. *)
Definition silentEnv : Env :=
  {| API_KEY := Some "key";
     blobToBase64 := fun _ => Ok "AAAA";
     generateContent := fun _ _ => Ok {| text := None |} |}.

(** An environment in which the transcription is refused. *)
Definition refusingEnv : Env :=
  {| API_KEY := Some "key";
     blobToBase64 := fun _ => Ok "AAAA";
     generateContent := fun _ _ => Throw (Thrown (Some "400 Bad Request")) |}.

Definition noon : Clock :=
  {| nowString := "1793534400000"; timeString := "12:00";
     dateString := "01/11/2026" |}.

Definition webmOnly (ty : string) : bool := String.eqb ty "audio/webm".

(** A recording just started from the mounted component. *)
Definition recordingState : AppState :=
  App.startRecording webmOnly true initialState.

Definition chunkA : Blob :=
  {| data := [Byte.x01; Byte.x02; Byte.x03]; type := "audio/webm" |}.
Definition chunkB : Blob :=
  {| data := [Byte.x04; Byte.x05]; type := "audio/webm" |}.
Definition emptyChunk : Blob := {| data := []; type := "audio/webm" |}.

(** A session that is capturing: one chunk delivered, five seconds on
    the clock of the timer (interval 1). *)
Definition capturingState : AppState :=
  App.tick 1 (App.tick 1 (App.tick 1 (App.tick 1 (App.tick 1
    (deliver [chunkA] recordingState))))).

(** The same session after the stop button, when [processAudio] awaits
    the transcription. *)
Definition transcribingState : AppState :=
  setProcessingStatus TRANSCRIBING
    (releaseTracks (App.stopRecording capturingState)).

(** A parser that accepts the text of the empty array and nothing else. *)
Definition parseEmptyArrayOnly (s : string) : option (list Note) :=
  if String.eqb s "[]" then Some [] else None.

(* ===================================================================== *)
(** ** Events of a capture                                                *)
(* ===================================================================== *)

(** What reaches the component while it records: a chunk from the
    recorder or a firing of a one-second interval. *)
Inductive CaptureEvent : Type :=
| Chunk (c : Blob)
| Second (timer : nat).

Definition captureStep (st : AppState) (e : CaptureEvent) : AppState :=
  match e with
  | Chunk c => ondataavailable c st
  | Second t => App.tick t st
  end.

Definition runCapture (events : list CaptureEvent) (st : AppState) : AppState :=
  List.fold_left captureStep events st.

(** The chunks among the events, in order. *)
Fixpoint chunksOf (events : list CaptureEvent) : list Blob :=
  match events with
  | [] => []
  | Chunk c :: r => c :: chunksOf r
  | Second _ :: r => chunksOf r
  end.

(** How many times the interval [t] fires among the events. *)
Fixpoint secondsOf (t : nat) (events : list CaptureEvent) : nat :=
  match events with
  | [] => 0
  | Chunk _ :: r => secondsOf t r
  | Second u :: r => (if Nat.eqb u t then 1 else 0) + secondsOf t r
  end.

Definition isLongRecordingAlert (a : Alert) : bool :=
  match a with
  | LongRecordingAlert => true
  | _ => false
  end.

(** How many times the sixty-minute warning was shown. *)
Definition longRecordingAlerts (st : AppState) : nat :=
  List.length (List.filter isLongRecordingAlert (alerts st)).

(* ===================================================================== *)
(** ** [localStorage] and the two effects of App.tsx                      *)
(* ===================================================================== *)

(** [localStorage]: the text stored under each key, if any. *)
Definition Storage : Type := string -> option string.

Definition getItem (ls : Storage) (key : string) : option string := ls key.

Definition setItem (key value : string) (ls : Storage) : Storage :=
  fun k => if String.eqb k key then Some value else ls k.

Module Persist.

(** The key of App.tsx. *)
Definition notesKey : string := "voznotes".

(** Save notes on update: the effect with dependency [notes], run with
    the notes of the render it belongs to. [JSON_stringify] is the
    browser's [JSON.stringify] on an array of notes. *)
Definition saveEffect (JSON_stringify : list Note -> string)
    (st : AppState) (ls : Storage) : Storage :=
  setItem notesKey (JSON_stringify (notes st)) ls.

(** The mount of the component. After the first render, whose notes are
    the empty array, the two effects run in the order they are written:
    the load, then the save with the notes of that first render. The
    state the load set is rendered next, and the save effect runs with
    it (when the load set nothing, the notes are unchanged and a second
    run writes the same text). *)
Definition mount (JSON_parse : string -> option (list Note))
    (JSON_stringify : list Note -> string) (ls : Storage) : AppState * Storage :=
  let st1 := fst (App.loadNotes JSON_parse (getItem ls notesKey) initialState) in
  let ls1 := saveEffect JSON_stringify initialState ls in
  (st1, saveEffect JSON_stringify st1 ls1).


End Persist.


(* ===================================================================== *)
(** ** Reading a duration back                                            *)
(* ===================================================================== *)

(** The text before the first colon and the text after it. *)
Fixpoint splitAtColon (s : string) : option (string * string) :=
  match s with
  | EmptyString => None
  | String c r =>
      if Ascii.eqb c ":" then Some (EmptyString, r)
      else match splitAtColon r with
           | Some (a, b) => Some (String c a, b)
           | None => None
           end
  end.

(** The seconds a text of the form minutes, colon, seconds stands for. *)
Definition parseDuration (s : string) : option N :=
  match splitAtColon s with
  | Some (mm, ss) =>
      match decimalValue mm, decimalValue ss with
      | Some m, Some r => Some (m * 60 + r)%N
      | _, _ => None
      end
  | None => None
  end.

(* ===================================================================== *)
(** ** The screens of App.tsx and the events they offer                   *)
(* ===================================================================== *)













(* ===================================================================== *)
(** ** [exportPDF] (App.tsx)                                              *)
(* ===================================================================== *)

(** The calls [exportPDF] makes on the jsPDF document, in order. *)
Inductive PdfOp : Type :=
| SetFontSize (n : N)
| SetTextColor (n : N)
| DrawText (s : string) (x y : N)
| DrawLines (lines : list string) (x y : N)
| AddPage
| SavePdf (fileName : string).

(** [s.replace(/[#*]/g, '')]. *)
Fixpoint stripMarkup (s : string) : string :=
  match s with
  | EmptyString => EmptyString
  | String c r =>
      if (Ascii.eqb c "#" || Ascii.eqb c "*")%bool then stripMarkup r
      else String c (stripMarkup r)
  end.

(** [s.replace(/\s+/g, '_')]: every maximal run of white space becomes
    one underscore; [inRun] tells that the character before was white
    space. The class [\s] is the white space of [trim]. *)
Fixpoint underscoreRuns (inRun : bool) (s : string) : string :=
  match s with
  | EmptyString => EmptyString
  | String c r =>
      if JS.isWhiteSpace c
      then if inRun then underscoreRuns true r
           else String "_" (underscoreRuns true r)
      else String c (underscoreRuns false r)
  end.

Definition replaceWhitespace (s : string) : string := underscoreRuns false s.








(** How many pages were added. *)
Fixpoint pagesAdded (ops : list PdfOp) : nat :=
  match ops with
  | [] => 0
  | AddPage :: r => S (pagesAdded r)
  | _ :: r => pagesAdded r
  end.


(* ===================================================================== *)
(** ** [blobToBase64] (services/ai.ts, geminiService.ts)                  *)
(* ===================================================================== *)

(** [s.split(',')]. *)
Fixpoint splitOnComma (s : string) : list string :=
  match s with
  | EmptyString => [EmptyString]
  | String c r =>
      if Ascii.eqb c ","
      then EmptyString :: splitOnComma r
      else match splitOnComma r with
           | h :: t => String c h :: t
           | [] => [String c EmptyString]
           end
  end.

(** [base64String.split(',')[1]], [None] for [undefined]. *)
Definition base64Data (base64String : string) : option string :=
  nth_error (splitOnComma base64String) 1.

(** [blobToBase64], given what [FileReader.readAsDataURL] ends with. *)
Definition blobToBase64With (readAsDataURL : Blob -> result string)
    (blob : Blob) : result (option string) :=
  match readAsDataURL blob with
  | Ok dataUrl => Ok (base64Data dataUrl)
  | Throw e => Throw e
  end.

Fixpoint hasComma (s : string) : bool :=
  match s with
  | EmptyString => false
  | String c r => Ascii.eqb c "," || hasComma r
  end.

(** The same events in voznote-ai/App.tsx, whose timer only counts. *)
Definition variantCaptureStep (st : AppState) (e : CaptureEvent) : AppState :=
  match e with
  | Chunk c => ondataavailable c st
  | Second t => VozNoteAI.tick t st
  end.

Definition variantRunCapture (events : list CaptureEvent) (st : AppState) : AppState :=
  List.fold_left variantCaptureStep events st.

(* ===================================================================== *)
(** ** Properties of the JavaScript primitives                            *)
(* ===================================================================== *)

Lemma append_assoc_str (a b c : string) : (a ++ b) ++ c = a ++ (b ++ c).
Proof. induction a as [|x a IH]; simpl; [reflexivity | now rewrite IH]. Qed.

Lemma append_nil_r (a : string) : a ++ "" = a.
Proof. induction a as [|x a IH]; simpl; [reflexivity | now rewrite IH]. Qed.

Lemma length_append (a b : string) :
  String.length (a ++ b) = String.length a + String.length b.
Proof. induction a as [|x a IH]; simpl; [reflexivity | now rewrite IH]. Qed.

Lemma digitValue_digitChar (d : N) :
  (d < 10)%N -> digitValue (JS.digitChar d) = Some d.
Proof.
  intros H.
  assert (E : (d = 0 \/ d = 1 \/ d = 2 \/ d = 3 \/ d = 4 \/ d = 5 \/ d = 6
               \/ d = 7 \/ d = 8 \/ d = 9)%N) by lia.
  repeat (destruct E as [E | E]; [subst d; reflexivity |]).
  subst d; reflexivity.
Qed.

(** Reading one more digit at the end of a numeral. *)
Lemma decimal_from_snoc (ds : string) (d a v : N) :
  (d < 10)%N ->
  decimal_from a ds = Some v ->
  decimal_from a (ds ++ String (JS.digitChar d) "") = Some (v * 10 + d)%N.
Proof.
  intros Hd. revert a.
  induction ds as [|c ds IH]; simpl; intros a H.
  - injection H as <-. now rewrite digitValue_digitChar.
  - destruct (digitValue c); [now apply IH | discriminate].
Qed.

Lemma size_nat_bound (n : N) : (n < 2 ^ N.of_nat (N.size_nat n))%N.
Proof.
  destruct n as [|p]; [reflexivity|].
  simpl N.size_nat.
  induction p as [p IH | p IH |].
  - cbn [Pos.size_nat]. rewrite Nat2N.inj_succ, N.pow_succ_r'. lia.
  - cbn [Pos.size_nat]. rewrite Nat2N.inj_succ, N.pow_succ_r'. lia.
  - reflexivity.
Qed.

Lemma toString_aux_S (f : nat) (n : N) (acc : string) :
  JS.toString_aux (S f) n acc =
  if (n / 10 =? 0)%N then String (JS.digitChar (n mod 10)) acc
  else JS.toString_aux f (n / 10) (String (JS.digitChar (n mod 10)) acc).
Proof. reflexivity. Qed.

(** What [toString_aux] writes in front of the accumulator, given fuel
    for every digit: the numeral of [n], without leading zero. *)
Lemma toString_aux_spec (f : nat) :
  forall (n : N) (acc : string),
    (n < 2 ^ N.of_nat (S f))%N ->
    exists ds,
      JS.toString_aux (S f) n acc = ds ++ acc
      /\ decimal_from 0 ds = Some n
      /\ 1 <= String.length ds
      /\ (n < 10 ^ N.of_nat (String.length ds))%N
      /\ (0 < n -> 10 ^ N.of_nat (String.length ds - 1) <= n)%N.
Proof.
  induction f as [|f IH]; intros n acc Hn.
  - assert (Hs : (n / 10 = 0)%N).
    { apply N.div_small. change (2 ^ N.of_nat 1)%N with 2%N in Hn. lia. }
    exists (String (JS.digitChar (n mod 10)) "").
    rewrite toString_aux_S, Hs. cbn [N.eqb].
    assert (Hm : (n mod 10 = n)%N) by (apply N.mod_small; change (2 ^ N.of_nat 1)%N with 2%N in Hn; lia).
    rewrite Hm.
    assert (Hlt : (n < 10)%N) by (change (2 ^ N.of_nat 1)%N with 2%N in Hn; lia).
    repeat split.
    + simpl. rewrite digitValue_digitChar by exact Hlt. reflexivity.
    + simpl. lia.
    + simpl. exact Hlt.
    + simpl. intros; lia.
  - rewrite toString_aux_S.
    destruct (N.eqb_spec (n / 10) 0) as [Hz | Hnz].
    + assert (Hlt : (n < 10)%N).
      { destruct (N.lt_ge_cases n 10) as [L | G]; [exact L |].
        assert (1 <= n / 10)%N by (apply N.div_le_lower_bound; lia). lia. }
      exists (String (JS.digitChar (n mod 10)) "").
      rewrite (N.mod_small n 10 Hlt).
      repeat split.
      * simpl. rewrite digitValue_digitChar by exact Hlt. reflexivity.
      * simpl. lia.
      * simpl. exact Hlt.
      * simpl. intros; lia.
    + assert (Hq : (n / 10 < 2 ^ N.of_nat (S f))%N).
      { rewrite (Nat2N.inj_succ (S f)), N.pow_succ_r' in Hn.
        apply N.Div0.div_lt_upper_bound; lia. }
      destruct (IH (n / 10)%N (String (JS.digitChar (n mod 10)) acc) Hq)
        as (ds & E & V & L & U & Lo).
      exists (ds ++ String (JS.digitChar (n mod 10)) "").
      assert (Hmod : (n mod 10 < 10)%N) by (apply N.mod_lt; lia).
      assert (Hdm : (n = 10 * (n / 10) + n mod 10)%N) by (apply N.div_mod; lia).
      repeat split.
      * rewrite E, append_assoc_str. reflexivity.
      * rewrite (decimal_from_snoc ds (n mod 10) 0 (n / 10) Hmod V).
        f_equal. lia.
      * rewrite length_append. simpl. lia.
      * rewrite length_append. simpl String.length.
        replace (String.length ds + 1) with (S (String.length ds)) by lia.
        rewrite Nat2N.inj_succ, N.pow_succ_r'. lia.
      * intros _. rewrite length_append. simpl String.length.
        replace (String.length ds + 1 - 1) with (S (String.length ds - 1)) by lia.
        rewrite Nat2N.inj_succ, N.pow_succ_r'.
        assert (Hpos : (0 < n / 10)%N) by lia. specialize (Lo Hpos).
        set (P := (10 ^ N.of_nat (String.length ds - 1))%N) in *.
        set (q := (n / 10)%N) in *. set (r := (n mod 10)%N) in *. lia.
Qed.

(** [Number.prototype.toString] writes the numeral of [n]. *)
Lemma toString_spec (n : N) :
  decimal_from 0 (JS.toString n) = Some n
  /\ 1 <= String.length (JS.toString n)
  /\ (n < 10 ^ N.of_nat (String.length (JS.toString n)))%N
  /\ (0 < n -> 10 ^ N.of_nat (String.length (JS.toString n) - 1) <= n)%N.
Proof.
  unfold JS.toString.
  destruct (toString_aux_spec (N.size_nat n) n "") as (ds & E & V & L & U & Lo).
  - rewrite Nat2N.inj_succ, N.pow_succ_r'.
    pose proof (size_nat_bound n). lia.
  - rewrite E, append_nil_r. auto.
Qed.

Lemma toString_length_small (n : N) :
  (n < 10)%N -> String.length (JS.toString n) = 1.
Proof.
  intros H.
  destruct (toString_spec n) as (_ & L & _ & Lo).
  destruct (N.eq_dec n 0) as [-> | Hn]; [reflexivity|].
  destruct (String.length (JS.toString n)) as [|[|k]] eqn:E; [lia | reflexivity |].
  exfalso.
  assert (P : (10 ^ 1 <= 10 ^ N.of_nat (S (S k) - 1))%N)
    by (apply N.pow_le_mono_r; lia).
  change (10 ^ 1)%N with 10%N in P.
  assert (Q : (0 < n)%N) by lia. specialize (Lo Q). lia.
Qed.

Lemma toString_length_large (n : N) (k : nat) :
  (10 ^ N.of_nat k <= n)%N -> S k <= String.length (JS.toString n).
Proof.
  intros H.
  destruct (toString_spec n) as (_ & _ & U & _).
  destruct (Nat.le_gt_cases (S k) (String.length (JS.toString n))) as [G | G];
    [exact G | exfalso].
  assert (P : (10 ^ N.of_nat (String.length (JS.toString n)) <= 10 ^ N.of_nat k)%N)
    by (apply N.pow_le_mono_r; lia).
  lia.
Qed.

(** On a numeral, [padStart(2, '0')] is the zero-padding to two digits. *)
Lemma padStart_zeroPad2 (n : N) :
  JS.padStart (JS.toString n) 2 "0" = zeroPad2 n.
Proof.
  unfold JS.padStart, zeroPad2.
  destruct (N.ltb_spec n 10) as [Hlt | Hge].
  - pose proof (toString_length_small n Hlt) as E.
    rewrite E. reflexivity.
  - pose proof (toString_length_large n 1 Hge) as E.
    destruct (Nat.leb_spec 2 (String.length (JS.toString n))); [reflexivity | lia].
Qed.

Lemma decimalValue_toString (n : N) : decimalValue (JS.toString n) = Some n.
Proof.
  destruct (toString_spec n) as (V & L & _).
  unfold decimalValue.
  destruct (JS.toString n); [simpl in L; lia | exact V].
Qed.

Lemma decimalValue_zeroPad2 (n : N) : decimalValue (zeroPad2 n) = Some n.
Proof.
  unfold zeroPad2. destruct (n <? 10)%N.
  - destruct (toString_spec n) as (V & _). simpl. exact V.
  - apply decimalValue_toString.
Qed.

Lemma length_zeroPad2 (n : N) :
  String.length (zeroPad2 n) = Nat.max 2 (String.length (JS.toString n)).
Proof.
  unfold zeroPad2. destruct (N.ltb_spec n 10) as [Hlt | Hge].
  - simpl. now rewrite (toString_length_small n Hlt).
  - pose proof (toString_length_large n 1 Hge). lia.
Qed.

(* ===================================================================== *)
(** ** The duration formatter                                             *)
(* ===================================================================== *)

(** C9. For every number of seconds [s], [formatTime s] is the minutes
    [s / 60] zero-padded to at least two digits, a colon, and the seconds
    [s mod 60] zero-padded to two digits. The seconds field has exactly
    two characters; the minutes field has two characters below 100
    minutes and is the plain numeral, three digits or more, from 100
    minutes on, so that nothing rolls over into hours: 3600 seconds give
    "60:00" and 6000 seconds give "100:00". *)
Theorem formatTime_minutes_colon_seconds (s : N) :
  formatTime s = zeroPad2 (s / 60) ++ ":" ++ zeroPad2 (s mod 60)
  /\ (exists mm ss,
        formatTime s = mm ++ ":" ++ ss
        /\ decimalValue mm = Some (s / 60)%N
        /\ decimalValue ss = Some (s mod 60)%N
        /\ String.length ss = 2
        /\ String.length mm = Nat.max 2 (String.length (JS.toString (s / 60)))
        /\ ((s / 60 < 100)%N -> String.length mm = 2)
        /\ ((100 <= s / 60)%N ->
            mm = JS.toString (s / 60) /\ 3 <= String.length mm))
  /\ formatTime 3600 = "60:00"
  /\ formatTime 6000 = "100:00".
Proof.
  assert (F : formatTime s = zeroPad2 (s / 60) ++ ":" ++ zeroPad2 (s mod 60)).
  { unfold formatTime. cbv zeta. now rewrite !padStart_zeroPad2. }
  split; [exact F|]. split; [| split; reflexivity].
  exists (zeroPad2 (s / 60)), (zeroPad2 (s mod 60)).
  assert (Hr : (s mod 60 < 60)%N) by (apply N.mod_lt; lia).
  repeat split.
  - exact F.
  - apply decimalValue_zeroPad2.
  - apply decimalValue_zeroPad2.
  - rewrite length_zeroPad2.
    destruct (N.ltb_spec (s mod 60) 10) as [Hlt | Hge].
    + now rewrite (toString_length_small _ Hlt).
    + pose proof (toString_length_large _ 1 Hge) as G.
      destruct (toString_spec (s mod 60)) as (_ & _ & _ & Lo).
      destruct (Nat.le_gt_cases 3 (String.length (JS.toString (s mod 60)))) as [T | T];
        [exfalso | lia].
      assert (P : (10 ^ 2 <= 10 ^ N.of_nat (String.length (JS.toString (s mod 60)) - 1))%N)
        by (apply N.pow_le_mono_r; lia).
      change (10 ^ 2)%N with 100%N in P.
      assert (Q : (0 < s mod 60)%N) by lia. specialize (Lo Q).
      set (r := (s mod 60)%N) in *. lia.
  - apply length_zeroPad2.
  - intros Hm. rewrite length_zeroPad2.
    destruct (toString_spec (s / 60)) as (_ & L & _ & Lo).
    destruct (Nat.le_gt_cases 3 (String.length (JS.toString (s / 60)))) as [T | T];
      [exfalso | lia].
    assert (P : (10 ^ 2 <= 10 ^ N.of_nat (String.length (JS.toString (s / 60)) - 1))%N)
      by (apply N.pow_le_mono_r; lia).
    change (10 ^ 2)%N with 100%N in P.
    destruct (N.eq_dec (s / 60) 0) as [Z | NZ].
    + rewrite Z in T. simpl in T. lia.
    + assert (Q : (0 < s / 60)%N) by (apply N.neq_0_lt_0; exact NZ).
      specialize (Lo Q).
      set (m := (s / 60)%N) in *. lia.
  - unfold zeroPad2. destruct (N.ltb_spec (s / 60) 10); [lia | reflexivity].
  - rewrite length_zeroPad2.
    assert (G : (10 ^ N.of_nat 2 <= s / 60)%N) by (change (10 ^ N.of_nat 2)%N with 100%N; assumption).
    pose proof (toString_length_large _ 2 G). lia.
Qed.

(* ===================================================================== *)
(** ** The note store: [saveNote]                                         *)
(* ===================================================================== *)

Lemma saveNote_update_present (a : Note) (prev : list Note) :
  (exists n, In n prev /\ id n = id a) ->
  saveNote_update a prev = map (replace_by_id a) prev.
Proof.
  intros (n & Hin & Hid). unfold saveNote_update.
  destruct (List.find _ prev) eqn:F; [reflexivity|].
  pose proof (List.find_none _ _ F n Hin) as H. simpl in H.
  apply String.eqb_neq in H. contradiction.
Qed.

Lemma saveNote_update_absent (a : Note) (prev : list Note) :
  (forall n, In n prev -> id n <> id a) ->
  saveNote_update a prev = a :: prev.
Proof.
  intros H. unfold saveNote_update.
  destruct (List.find _ prev) as [n|] eqn:F; [|reflexivity].
  apply List.find_some in F. destruct F as [Hin E].
  apply String.eqb_eq in E. now elim (H n Hin).
Qed.

Lemma map_replace_absent (a : Note) (prev : list Note) :
  (forall n, In n prev -> id n <> id a) ->
  map (replace_by_id a) prev = prev.
Proof.
  induction prev as [|n prev IH]; simpl; intros H; [reflexivity|].
  unfold replace_by_id at 1.
  destruct (String.eqb_spec (id n) (id a)) as [E | _].
  - elim (H n (or_introl eq_refl) E).
  - f_equal. apply IH. intros m Hm. apply H. now right.
Qed.

Lemma replace_by_id_idem (a n : Note) :
  replace_by_id a (replace_by_id a n) = replace_by_id a n.
Proof.
  unfold replace_by_id.
  destruct (String.eqb (id n) (id a)) eqn:E.
  - now rewrite String.eqb_refl.
  - now rewrite E.
Qed.

Lemma saveNote_update_idem (a : Note) (prev : list Note) :
  saveNote_update a (saveNote_update a prev) = saveNote_update a prev.
Proof.
  destruct (List.find (fun n => String.eqb (id n) (id a)) prev) as [n|] eqn:F.
  - apply List.find_some in F. destruct F as [Hin E]. apply String.eqb_eq in E.
    assert (P : exists m, In m prev /\ id m = id a) by (exists n; auto).
    rewrite (saveNote_update_present a prev P).
    rewrite saveNote_update_present.
    + rewrite map_map. apply map_ext. intros m. apply replace_by_id_idem.
    + exists a. split; [|reflexivity].
      apply in_map_iff. exists n. split; [|exact Hin].
      unfold replace_by_id. now rewrite (proj2 (String.eqb_eq _ _) E).
  - assert (P : forall m, In m prev -> id m <> id a).
    { intros m Hm. apply String.eqb_neq. exact (List.find_none _ _ F m Hm). }
    rewrite (saveNote_update_absent a prev P).
    rewrite saveNote_update_present.
    + simpl. unfold replace_by_id at 1. rewrite String.eqb_refl. f_equal.
      now apply map_replace_absent.
    + exists a. split; [now left | reflexivity].
Qed.

(** C4. [saveNote] commits the active note by id. When a note with that
    id is in the store, the store keeps its length and every position
    keeps its note, except that the positions holding that id now hold
    the committed note; when no note has that id, the committed note is
    put in front. Saving the same note twice gives the same store as
    saving it once, and saving fresh notes A then B puts B before A
    before the old store. The variant's [saveNote] is the same function. *)
Theorem saveNote_insert_or_replace
    (st : AppState) (a : Note) (Ha : activeNote st = Some a) :
  let prev := notes st in
  let next := notes (App.saveNote st) in
  ((exists n, In n prev /\ id n = id a) ->
     List.length next = List.length prev
     /\ forall i n, nth_error prev i = Some n ->
          (id n = id a -> nth_error next i = Some a)
          /\ (id n <> id a -> nth_error next i = Some n))
  /\ ((forall n, In n prev -> id n <> id a) -> next = a :: prev)
  /\ notes (App.saveNote (App.saveNote st)) = next
  /\ (forall b, id b <> id a ->
        (forall n, In n prev -> id n <> id a /\ id n <> id b) ->
        notes (App.saveNote (set_activeNote (Some b) (App.saveNote st)))
        = b :: a :: prev)
  /\ VozNoteAI.saveNote st = App.saveNote st.
Proof.
  intros prev next.
  assert (N1 : next = saveNote_update a prev).
  { unfold next, App.saveNote. now rewrite Ha. }
  split; [| split; [| split; [| split]]].
  - intros P. rewrite N1, (saveNote_update_present a prev P).
    split; [apply length_map|].
    intros i n Hi. rewrite nth_error_map, Hi. simpl. unfold replace_by_id.
    split; intros E.
    + now rewrite (proj2 (String.eqb_eq _ _) E).
    + now rewrite (proj2 (String.eqb_neq _ _) E).
  - intros H. rewrite N1. now apply saveNote_update_absent.
  - unfold App.saveNote at 1.
    assert (A1 : activeNote (App.saveNote st) = Some a).
    { unfold App.saveNote. now rewrite Ha. }
    rewrite A1. simpl. fold next. rewrite N1. apply saveNote_update_idem.
  - intros b Hb H. unfold App.saveNote at 1. simpl.
    fold next. rewrite N1.
    rewrite (saveNote_update_absent a prev) by (intros n Hn; apply (H n Hn)).
    apply saveNote_update_absent.
    intros n [<- | Hn]; [congruence | apply (H n Hn)].
  - reflexivity.
Qed.

(* ===================================================================== *)
(** ** Search                                                             *)
(* ===================================================================== *)

Lemma startsWith_spec (s p : string) :
  JS.startsWith s p = true <-> exists post, s = p ++ post.
Proof.
  revert s. induction p as [|a p IH]; intros s; simpl.
  - split; [intros _; now exists s | reflexivity].
  - destruct s as [|b s].
    + split; [discriminate | intros (post & E); discriminate].
    + rewrite andb_true_iff, IH. split.
      * intros (E & post & ->). apply Ascii.eqb_eq in E. subst. now exists post.
      * intros (post & E). injection E as -> ->.
        split; [apply Ascii.eqb_refl | now exists post].
Qed.

Lemma includes_spec (s q : string) :
  JS.includes s q = true <-> exists pre post, s = pre ++ q ++ post.
Proof.
  induction s as [|c s IH]; simpl.
  - rewrite orb_false_r, startsWith_spec. split.
    + intros (post & E). now exists "", post.
    + intros (pre & post & E). destruct pre; [now exists post | discriminate].
  - rewrite orb_true_iff, startsWith_spec, IH. split.
    + intros [(post & E) | (pre & post & E)].
      * now exists "", post.
      * exists (String c pre), post. simpl. now rewrite E.
    + intros (pre & post & E). destruct pre as [|d pre].
      * left. now exists post.
      * right. injection E as _ E. now exists pre, post.
Qed.

Lemma includes_empty (s : string) : JS.includes s "" = true.
Proof. apply includes_spec. now exists "", s. Qed.

Lemma toLowerCase_app (a b : string) :
  JS.toLowerCase (a ++ b) = JS.toLowerCase a ++ JS.toLowerCase b.
Proof. induction a as [|c a IH]; simpl; [reflexivity | now rewrite IH]. Qed.

(** A split of the lowered text comes from a split of the text. *)
Lemma toLowerCase_split (s x y : string) :
  JS.toLowerCase s = x ++ y ->
  exists a b, s = a ++ b /\ JS.toLowerCase a = x /\ JS.toLowerCase b = y.
Proof.
  revert s. induction x as [|c x IH]; intros s E.
  - now exists "", s.
  - destruct s as [|d s]; [discriminate|].
    simpl in E. injection E as Ec E.
    destruct (IH s E) as (a & b & -> & Ea & Eb).
    exists (String d a), b. simpl. now rewrite Ec, Ea, Eb.
Qed.

(** The test the code runs on lowered texts decides containment up to
    case. *)
Lemma includes_lower_spec (s q : string) :
  JS.includes (JS.toLowerCase s) (JS.toLowerCase q) = true
  <-> containsIgnoringCase s q.
Proof.
  rewrite includes_spec. unfold containsIgnoringCase, equalIgnoringCase. split.
  - intros (pre & post & E).
    destruct (toLowerCase_split _ _ _ E) as (a & b & -> & Ea & Eb).
    destruct (toLowerCase_split _ _ _ Eb) as (u & c & -> & Eu & Ec).
    now exists a, u, c.
  - intros (pre & u & post & -> & E).
    exists (JS.toLowerCase pre), (JS.toLowerCase post).
    now rewrite !toLowerCase_app, E.
Qed.

Lemma filter_Selects {A : Type} (f : A -> bool) (P : A -> Prop) (l : list A) :
  (forall x, f x = true <-> P x) -> Selects P l (List.filter f l).
Proof.
  intros H. induction l as [|x l IH]; simpl.
  - constructor.
  - destruct (f x) eqn:E.
    + apply Selects_keep; [now apply H | exact IH].
    + apply Selects_drop; [| exact IH].
      intros Px. apply H in Px. congruence.
Qed.

Lemma filter_all {A : Type} (f : A -> bool) (l : list A) :
  (forall x, f x = true) -> List.filter f l = l.
Proof.
  intros H. induction l as [|x l IH]; simpl; [reflexivity|].
  now rewrite H, IH.
Qed.

(** C5, as the code has it. In [voznote-ai/App.tsx] the search returns,
    for every store and query, exactly the notes whose title, summary or
    some tag contains the query as a case-insensitive substring, in store
    order. In [voznote-ai (1)/App.tsx], which has no tags, it returns
    exactly the notes whose title or summary does. In both, the empty
    query returns the whole store. *)
Theorem filteredNotes_selects (store : list Note) (q : string) :
  Selects (matchesQuery q) store (VozNoteAI.filteredNotes store q)
  /\ VozNoteAI.filteredNotes store "" = store
  /\ Selects (matchesTitleOrSummary q) store (VozNoteAI1.filteredNotes store q)
  /\ VozNoteAI1.filteredNotes store "" = store.
Proof.
  split; [| split; [| split]].
  - apply filter_Selects. intros n. unfold matchesQuery.
    rewrite !orb_true_iff, !includes_lower_spec, existsb_exists.
    split.
    + intros [[H | H] | (t & Ht & H)]; [now left | now right; left |].
      right; right. exists t. split; [exact Ht | now apply includes_lower_spec].
    + intros [H | [H | (t & Ht & H)]]; [now left; left | now left; right |].
      right. exists t. split; [exact Ht | now apply includes_lower_spec].
  - apply filter_all. intros n. simpl. now rewrite includes_empty.
  - apply filter_Selects. intros n. unfold matchesTitleOrSummary.
    now rewrite orb_true_iff, !includes_lower_spec.
  - apply filter_all. intros n. simpl. now rewrite includes_empty.
Qed.

(** C5 as stated fails on [voznote-ai (1)/App.tsx]: in a store holding
    "Weekly Sync" with the tag "billing" and "Standup" without tags, the
    query "BILL" selects the first note by its tag, and the search of this
    variant returns nothing. *)
Lemma filteredNotes_variant_ignores_tags :
  VozNoteAI1.filteredNotes [weeklySync; standup] "BILL" = []
  /\ VozNoteAI.filteredNotes [weeklySync; standup] "BILL" = [weeklySync]
  /\ matchesQuery "BILL" weeklySync
  /\ ~ Selects (matchesQuery "BILL") [weeklySync; standup]
         (VozNoteAI1.filteredNotes [weeklySync; standup] "BILL").
Proof.
  assert (M : matchesQuery "BILL" weeklySync).
  { right; right. exists "billing". split; [now left|].
    exists "", "bill", "ing". split; reflexivity. }
  split; [reflexivity | split; [reflexivity | split; [exact M |]]].
  change (VozNoteAI1.filteredNotes [weeklySync; standup] "BILL") with (@nil Note).
  intros H. inversion H; subst. contradiction.
Qed.

(* ===================================================================== *)
(** ** Tags                                                               *)
(* ===================================================================== *)

Lemma trimStart_cases (s : string) :
  (whitespaceOnly s = true /\ JS.trimStart s = "")
  \/ (whitespaceOnly s = false
      /\ exists c r, JS.trimStart s = String c r /\ JS.isWhiteSpace c = false).
Proof.
  induction s as [|c s IH]; simpl.
  - now left.
  - destruct (JS.isWhiteSpace c) eqn:W; simpl.
    + exact IH.
    + right. split; [reflexivity | now exists c, s].
Qed.

Lemma trimEnd_keeps_head (c : ascii) (r : string) :
  JS.isWhiteSpace c = false -> JS.trimEnd (String c r) <> "".
Proof.
  intros W. simpl. destruct (JS.trimEnd r); [rewrite W|]; discriminate.
Qed.

(** [trim] gives the empty string exactly on the texts made of white
    space only. *)
Lemma trim_empty_iff (s : string) :
  JS.trim s = "" <-> whitespaceOnly s = true.
Proof.
  unfold JS.trim.
  destruct (trimStart_cases s) as [(W & E) | (W & c & r & E & Wc)]; rewrite E, W.
  - split; reflexivity.
  - split; [| discriminate].
    intros H. now elim (trimEnd_keeps_head c r Wc).
Qed.

Lemma existsb_eqb_In (t : string) (l : list string) :
  List.existsb (String.eqb t) l = true <-> In t l.
Proof.
  rewrite existsb_exists. split.
  - intros (x & Hx & E). apply String.eqb_eq in E. now subst.
  - intros H. exists t. split; [exact H | apply String.eqb_refl].
Qed.

Lemma NoDup_snoc {A : Type} (l : list A) (x : A) :
  NoDup l -> ~ In x l -> NoDup (l ++ [x]).
Proof.
  intros N H. induction N as [|y l Hy N IH]; simpl.
  - constructor; [intros [] | constructor].
  - constructor.
    + rewrite in_app_iff. intros [I | [E | []]]; [contradiction|].
      subst. apply H. now left.
    + apply IH. intros I. apply H. now right.
Qed.

(** What [addTag] leaves in the tags of the note under edit. *)
Lemma addTag_tags (st : AppState) (a : Note) :
  activeNote st = Some a ->
  activeTags (App.addTag st) =
    if whitespaceOnly (tagInput st) then tags a
    else if List.existsb (String.eqb (JS.trim (tagInput st))) (tags a) then tags a
    else (tags a ++ [JS.trim (tagInput st)])%list.
Proof.
  intros Ha. unfold App.addTag, activeTags. rewrite Ha.
  destruct (whitespaceOnly (tagInput st)) eqn:W.
  - apply trim_empty_iff in W. rewrite W. simpl. now rewrite Ha.
  - assert (T : JS.truthy (JS.trim (tagInput st)) = true).
    { unfold JS.truthy. destruct (String.eqb_spec (JS.trim (tagInput st)) "") as [E | _];
        [| reflexivity].
      apply trim_empty_iff in E. congruence. }
    rewrite T. simpl.
    destruct (List.existsb _ (tags a)); simpl; [now rewrite Ha | reflexivity].
Qed.

Lemma addTag_NoDup (st : AppState) :
  NoDup (activeTags st) -> NoDup (activeTags (App.addTag st)).
Proof.
  intros N. destruct (activeNote st) as [a|] eqn:Ha.
  - rewrite (addTag_tags st a Ha).
    unfold activeTags in N. rewrite Ha in N.
    destruct (whitespaceOnly _); [exact N|].
    destruct (List.existsb _ (tags a)) eqn:E; [exact N|].
    apply NoDup_snoc; [exact N|].
    intros I. apply existsb_eqb_In in I. congruence.
  - unfold App.addTag. now rewrite Ha.
Qed.

Lemma removeTag_NoDup (t : string) (st : AppState) :
  NoDup (activeTags st) -> NoDup (activeTags (App.removeTag t st)).
Proof.
  unfold App.removeTag, activeTags.
  destruct (activeNote st) as [a|] eqn:Ha; simpl.
  - apply NoDup_filter.
  - now rewrite Ha.
Qed.

Lemma runTagOps_NoDup (ops : list TagOp) (st : AppState) :
  NoDup (activeTags st) -> NoDup (activeTags (List.fold_left runTagOp ops st)).
Proof.
  revert st. induction ops as [|op ops IH]; intros st N; simpl; [exact N|].
  apply IH. destruct op as [input | tag]; simpl.
  - now apply addTag_NoDup.
  - now apply removeTag_NoDup.
Qed.

(** C8. With a note under edit, [addTag] on a text that is empty or white
    space only, or whose trimmed value is already among the tags, leaves
    the note as it is; on any other text it appends the trimmed value.
    Adding the same text twice to a note without tags leaves exactly one
    tag, and tags without duplicates stay without duplicates under any
    sequence of additions and removals. *)
Theorem addTag_unchanged_or_appended
    (st : AppState) (a : Note) (Ha : activeNote st = Some a) :
  let t := JS.trim (tagInput st) in
  (whitespaceOnly (tagInput st) = true \/ In t (tags a) ->
     activeNote (App.addTag st) = Some a)
  /\ (whitespaceOnly (tagInput st) = false -> ~ In t (tags a) ->
        activeTags (App.addTag st) = (tags a ++ [t])%list)
  /\ (whitespaceOnly (tagInput st) = false -> tags a = [] ->
        activeTags (App.addTag (set_tagInput (tagInput st) (App.addTag st))) = [t])
  /\ (forall ops, NoDup (tags a) ->
        NoDup (activeTags (List.fold_left runTagOp ops st))).
Proof.
  intros t. split; [| split; [| split]].
  - intros [W | I]; unfold App.addTag; rewrite Ha.
    + apply trim_empty_iff in W. now rewrite W.
    + fold t. apply existsb_eqb_In in I. rewrite I. simpl.
      destruct (JS.truthy t); simpl; [exact Ha | exact Ha].
  - intros W I. rewrite (addTag_tags st a Ha), W. fold t.
    destruct (List.existsb _ (tags a)) eqn:E; [| reflexivity].
    apply existsb_eqb_In in E. contradiction.
  - intros W E.
    assert (A1 : activeNote (App.addTag st) = Some (with_tags a [t])).
    { unfold App.addTag. rewrite Ha. fold t.
      assert (T : JS.truthy t = true).
      { unfold JS.truthy. destruct (String.eqb_spec t "") as [Z | _]; [| reflexivity].
        apply trim_empty_iff in Z. congruence. }
      rewrite T, E. reflexivity. }
    rewrite (addTag_tags _ (with_tags a [t])) by exact A1.
    simpl. rewrite W. fold t. now rewrite String.eqb_refl.
  - intros ops N. apply runTagOps_NoDup. unfold activeTags. now rewrite Ha.
Qed.

(* ===================================================================== *)
(** ** Capture: chunks and the finalized payload                          *)
(* ===================================================================== *)

Lemma deliver_chunks (chunks : list Blob) (st : AppState) :
  audioChunksRef (deliver chunks st)
  = (audioChunksRef st ++ nonEmptyChunks chunks)%list.
Proof.
  unfold deliver. revert st.
  induction chunks as [|c chunks IH]; intros st; simpl.
  - now rewrite app_nil_r.
  - rewrite IH. unfold ondataavailable.
    destruct (0 <? size c)%N; simpl; [now rewrite <- app_assoc | reflexivity].
Qed.

(** Delivery touches nothing but the chunk buffer. *)
Lemma deliver_frame (chunks : list Blob) (st : AppState) :
  deliver chunks st = set_audioChunksRef (audioChunksRef (deliver chunks st)) st.
Proof.
  unfold deliver. revert st.
  induction chunks as [|c chunks IH]; intros st; simpl.
  - now destruct st.
  - rewrite IH at 1. unfold ondataavailable.
    destruct (0 <? size c)%N; reflexivity.
Qed.

Lemma totalSize_nonEmpty (chunks : list Blob) :
  totalSize (nonEmptyChunks chunks) = totalSize chunks.
Proof.
  induction chunks as [|c chunks IH]; simpl; [reflexivity|].
  destruct (N.ltb_spec 0 (size c)); simpl; rewrite IH; lia.
Qed.

Lemma size_newBlob (parts : list Blob) (ty : string) :
  size (newBlob parts ty) = totalSize parts.
Proof.
  unfold size, newBlob. simpl.
  induction parts as [|c parts IH]; simpl; [reflexivity|].
  rewrite length_app, Nat2N.inj_add, IH. reflexivity.
Qed.

Lemma stopRecording_chunks (st : AppState) :
  audioChunksRef (App.stopRecording st) = audioChunksRef st
  /\ mimeTypeRef (App.stopRecording st) = mimeTypeRef st
  /\ mediaRecorderRef (App.stopRecording st) = mediaRecorderRef st.
Proof.
  unfold App.stopRecording.
  destruct (stopGuard st); [| auto].
  simpl. destruct (timerRef st); auto.
Qed.

(** C7. A recording is started, [chunks] are delivered, the stop button
    is pressed and the recorder delivers [late], its last chunks, before
    its [stop] event. The payload the [onstop] handler builds and hands
    to [processAudio] is the concatenation, in delivery order, of the
    chunks of positive size; its size is the sum of the sizes of the
    chunks delivered, and a chunk of size zero changes nothing. *)
Theorem finalized_payload_concatenates_chunks
    (isTypeSupported : string -> bool) (env : Env) (clock : Clock)
    (st0 : AppState) (chunks late : list Blob) :
  let st1 := App.startRecording isTypeSupported true st0 in
  let st2 := deliver chunks st1 in
  let st3 := deliver late (App.stopRecording st2) in
  let payload := newBlob (audioChunksRef st3) (orWebm (mimeTypeRef st3)) in
  App.stopAndProcess env clock late st2
    = App.processAudio env clock payload (releaseTracks st3)
  /\ data payload = concat (map data (nonEmptyChunks (chunks ++ late)))
  /\ size payload = totalSize (nonEmptyChunks (chunks ++ late))
  /\ size payload = totalSize (chunks ++ late)
  /\ (forall c st, size c = 0%N -> ondataavailable c st = st).
Proof.
  intros st1 st2 st3 payload.
  assert (G : stopGuard st2 = true).
  { unfold st2. rewrite deliver_frame. reflexivity. }
  assert (C : audioChunksRef st3 = nonEmptyChunks (chunks ++ late)).
  { unfold st3. rewrite deliver_chunks.
    rewrite (proj1 (stopRecording_chunks st2)).
    unfold st2. rewrite deliver_chunks. simpl.
    unfold nonEmptyChunks. now rewrite filter_app. }
  split; [| split; [| split; [| split]]].
  - unfold App.stopAndProcess. rewrite G. reflexivity.
  - unfold payload. simpl. now rewrite C.
  - unfold payload. now rewrite size_newBlob, C.
  - unfold payload. rewrite size_newBlob, C. apply totalSize_nonEmpty.
  - intros c st Z. unfold ondataavailable. now rewrite Z.
Qed.

(* ===================================================================== *)
(** ** The processing pipeline                                            *)
(* ===================================================================== *)

(** A run of [App.processAudio] never throws and leaves the state its
    outcome determines. *)
Lemma processAudio_run (env : Env) (clock : Clock) (blob : Blob) (st : AppState) :
  App.processAudio env clock blob st = (afterRun (outcomeOf env blob) clock st, Ok tt).
Proof.
  unfold App.processAudio, outcomeOf, afterRun, bind, try_catch_finally, act,
    await, gets, throw, ret, setStatuses.
  destruct (keyMissing (API_KEY env)); [reflexivity|].
  destruct (Ai.transcribeAudio env blob) as [t | e]; [| reflexivity].
  destruct (Ai.summarizeText env t) as [s | e]; reflexivity.
Qed.

Lemma variant_processAudio_run (svc : Services) (clock : Clock) (blob : Blob)
    (st : AppState) :
  VozNoteAI.processAudio svc clock blob st
  = (afterVariantRun (outcomeWith svc blob) clock st, Ok tt).
Proof.
  unfold VozNoteAI.processAudio, outcomeWith, afterVariantRun, bind,
    try_catch_finally, act, await, gets, throw, ret, setStatuses.
  destruct (transcribeAudio svc blob) as [t | e]; [| reflexivity].
  destruct (summarizeText svc t) as [s | e]; reflexivity.
Qed.

Lemma afterRun_statuses (o : Outcome) (clock : Clock) (st : AppState) :
  statusLog (afterRun o clock st) = (statusLog st ++ statusesOf o)%list
  /\ processingStatus (afterRun o clock st) = IDLE.
Proof.
  destruct o; simpl; rewrite <- ?app_assoc; split; reflexivity.
Qed.

Lemma afterVariantRun_statuses (o : Outcome) (clock : Clock) (st : AppState) :
  statusLog (afterVariantRun o clock st) = (statusLog st ++ variantStatusesOf o)%list
  /\ processingStatus (afterVariantRun o clock st) = IDLE.
Proof.
  destruct o; simpl; rewrite <- ?app_assoc; split; reflexivity.
Qed.

(** A run changes nothing of the capture, the store or the timers. *)
Lemma afterRun_frame (o : Outcome) (clock : Clock) (st : AppState) :
  let st' := afterRun o clock st in
  notes st' = notes st /\ isRecording st' = isRecording st
  /\ recordingDuration st' = recordingDuration st
  /\ mediaRecorderRef st' = mediaRecorderRef st
  /\ audioChunksRef st' = audioChunksRef st
  /\ timerRef st' = timerRef st /\ intervals st' = intervals st
  /\ liveStreams st' = liveStreams st.
Proof. destruct o; simpl; repeat split; reflexivity. Qed.

Lemma statusStep_statusesOf (o : Outcome) : chain statusStep (IDLE :: statusesOf o).
Proof. destruct o; simpl; repeat split; constructor. Qed.

Lemma variantStep_statusesOf (o : Outcome) :
  chain variantStep (IDLE :: variantStatusesOf o).
Proof. destruct o; simpl; repeat split; constructor. Qed.

(** C1, as the code has it. [ProcessingStatus] has no value for the
    capture: while recording, the status stays [IDLE] and no status is
    set. A run of [processAudio] in App.tsx never throws and sets, from
    [IDLE], TRANSCRIBING, SUMMARIZING, COMPLETED, IDLE when both calls
    succeed, TRANSCRIBING, ERROR, IDLE when the key is missing or the
    transcription fails, and TRANSCRIBING, SUMMARIZING, ERROR, IDLE when
    the summary fails: every transition is one of the status machine and
    the run ends at [IDLE]. The run of voznote-ai/App.tsx sets neither
    COMPLETED nor ERROR: TRANSCRIBING, SUMMARIZING, IDLE on success or on
    a failed summary, and TRANSCRIBING, IDLE on a failed transcription. *)
Theorem processingStatus_transitions
    (env : Env) (svc : Services) (clock : Clock) (blob : Blob) (st : AppState) :
  let st' := fst (App.processAudio env clock blob st) in
  let stv := fst (VozNoteAI.processAudio svc clock blob st) in
  snd (App.processAudio env clock blob st) = Ok tt
  /\ statusLog st' = (statusLog st ++ statusesOf (outcomeOf env blob))%list
  /\ chain statusStep (IDLE :: statusesOf (outcomeOf env blob))
  /\ processingStatus st' = IDLE
  /\ snd (VozNoteAI.processAudio svc clock blob st) = Ok tt
  /\ statusLog stv = (statusLog st ++ variantStatusesOf (outcomeWith svc blob))%list
  /\ chain variantStep (IDLE :: variantStatusesOf (outcomeWith svc blob))
  /\ processingStatus stv = IDLE
  /\ (forall isTypeSupported granted chunks t,
        let captured :=
          App.stopRecording
            (App.tick t (deliver chunks (App.startRecording isTypeSupported granted st))) in
        processingStatus captured = processingStatus st
        /\ statusLog captured = statusLog st).
Proof.
  intros st' stv. unfold st', stv.
  rewrite processAudio_run, variant_processAudio_run. simpl.
  destruct (afterRun_statuses (outcomeOf env blob) clock st) as [L S].
  destruct (afterVariantRun_statuses (outcomeWith svc blob) clock st) as [Lv Sv].
  repeat (split; [first [reflexivity | assumption | apply statusStep_statusesOf
                          | apply variantStep_statusesOf] |]).
  intros isTypeSupported granted chunks t.
  set (s1 := App.startRecording isTypeSupported granted st).
  assert (P1 : processingStatus s1 = processingStatus st /\ statusLog s1 = statusLog st)
    by (unfold s1, App.startRecording; destruct granted; split; reflexivity).
  set (s2 := deliver chunks s1).
  assert (P2 : processingStatus s2 = processingStatus st /\ statusLog s2 = statusLog st)
    by (unfold s2; rewrite deliver_frame; exact P1).
  set (s3 := App.tick t s2).
  assert (P3 : processingStatus s3 = processingStatus st /\ statusLog s3 = statusLog st).
  { unfold s3, App.tick. destruct (List.existsb _ _); [| exact P2].
    destruct (_ =? 3600)%N; exact P2. }
  unfold App.stopRecording. destruct (stopGuard s3); [| exact P3].
  simpl. destruct (timerRef s3); exact P3.
Qed.

(** C1 as stated fails on the code. A recording of one chunk is stopped
    and both calls succeed: the statuses set are TRANSCRIBING,
    SUMMARIZING, COMPLETED, IDLE, the status was IDLE during the capture,
    and the step from Idle to Transcribing is not a transition of the
    specification's machine, which has Capturing in between. The variant
    sets TRANSCRIBING, SUMMARIZING, IDLE, and even from Transcribing on
    its statuses leave the machine, at the step from Summarizing to Idle.
    Reading the capture off the recording flag does not help: the stop
    button clears the flag before any status is set, a step from Capturing
    to Idle. *)
Lemma status_skips_capturing :
  let st := deliver [chunkA] recordingState in
  let st' := fst (App.stopAndProcess helloEnv noon [] st) in
  let stv := fst (VozNoteAI.stopAndProcess helloServices noon [] st) in
  processingStatus st = IDLE
  /\ statusLog st = []
  /\ statusLog st' = [TRANSCRIBING; SUMMARIZING; COMPLETED; IDLE]
  /\ ~ chain specStep (map sessionStatus (processingStatus st :: statusLog st'))
  /\ statusLog stv = [TRANSCRIBING; SUMMARIZING; IDLE]
  /\ ~ chain specStep (map sessionStatus (statusLog stv))
  /\ sessionStatusOf st = Capturing
  /\ sessionStatusOf (App.stopRecording st) = Idle
  /\ ~ specStep Capturing Idle.
Proof.
  cbv zeta.
  split; [reflexivity | split; [reflexivity | split; [reflexivity |]]].
  split; [| split; [reflexivity | split; [| split; [reflexivity | split;
    [reflexivity | intros H; inversion H]]]]].
  - change (statusLog (fst (App.stopAndProcess helloEnv noon []
              (deliver [chunkA] recordingState))))
      with [TRANSCRIBING; SUMMARIZING; COMPLETED; IDLE].
    simpl. intros [H _]. inversion H.
  - change (statusLog (fst (VozNoteAI.stopAndProcess helloServices noon []
              (deliver [chunkA] recordingState))))
      with [TRANSCRIBING; SUMMARIZING; IDLE].
    simpl. intros (_ & H & _). inversion H.
Qed.

(* ===================================================================== *)
(** ** Stopping and starting a capture                                    *)
(* ===================================================================== *)

Lemma stopGuard_recording (st : AppState) (r : MediaRecorder) :
  mediaRecorderRef st = Some r -> isRecording st = true -> stopGuard st = true.
Proof. unfold stopGuard. now intros -> ->. Qed.

(** What the synchronous part of [stopRecording] leaves when it runs. *)
Lemma stopRecording_effect (st : AppState) :
  stopGuard st = true ->
  let st' := App.stopRecording st in
  isRecording st' = false /\ timerRef st' = None
  /\ (forall t, timerRef st = Some t -> ~ In t (intervals st'))
  /\ liveStreams st' = liveStreams st /\ notes st' = notes st
  /\ activeNote st' = activeNote st /\ alerts st' = alerts st
  /\ recordingDuration st' = recordingDuration st.
Proof.
  intros G. unfold App.stopRecording. rewrite G. simpl.
  destruct (timerRef st) as [t|] eqn:T; simpl; repeat split; try reflexivity.
  - intros u [= <-]. rewrite filter_In, Nat.eqb_refl. intros [_ H]. discriminate.
  - exact T.
  - intros u [=].
Qed.

Lemma releaseTracks_effect (st : AppState) (r : MediaRecorder) :
  mediaRecorderRef st = Some r ->
  ~ In (stream r) (liveStreams (releaseTracks st))
  /\ releaseTracks st = set_liveStreams (liveStreams (releaseTracks st)) st.
Proof.
  intros Hr. unfold releaseTracks. rewrite Hr. simpl. split.
  - rewrite filter_In, Nat.eqb_refl. intros [_ H]. discriminate.
  - reflexivity.
Qed.

Lemma afterVariantRun_frame (o : Outcome) (clock : Clock) (st : AppState) :
  let st' := afterVariantRun o clock st in
  notes st' = notes st /\ isRecording st' = isRecording st
  /\ intervals st' = intervals st /\ liveStreams st' = liveStreams st.
Proof. destruct o; simpl; repeat split; reflexivity. Qed.

Lemma variant_stopRecording_effect (st : AppState) :
  stopGuard st = true ->
  let st' := VozNoteAI.stopRecording st in
  isRecording st' = false
  /\ (forall t, timerRef st = Some t -> ~ In t (intervals st'))
  /\ notes st' = notes st
  /\ mediaRecorderRef st' = mediaRecorderRef st
  /\ audioChunksRef st' = audioChunksRef st.
Proof.
  intros G. unfold VozNoteAI.stopRecording. rewrite G. simpl.
  destruct (timerRef st) as [t|] eqn:T; simpl; repeat split; try reflexivity.
  - intros u [= <-]. rewrite filter_In, Nat.eqb_refl. intros [_ H]. discriminate.
  - intros u [=].
Qed.

(** The stop button in voznote-ai/App.tsx: the same, with the fixed type
    'audio/webm'. *)
Lemma variant_stop_processes_whatever_was_captured
    (svc : Services) (clock : Clock) (late : list Blob) (st : AppState)
    (r : MediaRecorder) :
  mediaRecorderRef st = Some r -> isRecording st = true ->
  let st3 := deliver late (VozNoteAI.stopRecording st) in
  let payload := newBlob (audioChunksRef st3) "audio/webm" in
  let st' := fst (VozNoteAI.stopAndProcess svc clock late st) in
  VozNoteAI.stopAndProcess svc clock late st
    = (afterVariantRun (outcomeWith svc payload) clock (releaseTracks st3), Ok tt)
  /\ (audioChunksRef st = [] -> nonEmptyChunks late = [] -> data payload = [])
  /\ isRecording st' = false
  /\ (forall t, timerRef st = Some t -> ~ In t (intervals st'))
  /\ ~ In (stream r) (liveStreams st')
  /\ notes st' = notes st.
Proof.
  intros Hr Hrec st3 payload st'.
  pose proof (stopGuard_recording st r Hr Hrec) as G.
  destruct (variant_stopRecording_effect st G) as (E1 & E2 & E3 & E4 & E5).
  assert (F3 : st3 = set_audioChunksRef (audioChunksRef st3) (VozNoteAI.stopRecording st))
    by apply deliver_frame.
  assert (R3 : mediaRecorderRef st3 = Some r) by (rewrite F3; simpl; congruence).
  destruct (releaseTracks_effect st3 r R3) as (L1 & L2).
  assert (Run : VozNoteAI.stopAndProcess svc clock late st
                = (afterVariantRun (outcomeWith svc payload) clock (releaseTracks st3),
                   Ok tt)).
  { unfold VozNoteAI.stopAndProcess. rewrite G.
    change (VozNoteAI.onstop svc clock (deliver late (VozNoteAI.stopRecording st)))
      with (VozNoteAI.processAudio svc clock payload (releaseTracks st3)).
    apply variant_processAudio_run. }
  assert (S' : st' = afterVariantRun (outcomeWith svc payload) clock (releaseTracks st3))
    by (unfold st'; now rewrite Run).
  destruct (afterVariantRun_frame (outcomeWith svc payload) clock (releaseTracks st3))
    as (A1 & A2 & A3 & A4).
  split; [exact Run |]. split; [| split; [| split; [| split]]].
  - intros Z N. unfold payload, st3. rewrite deliver_chunks, E5, Z, N. reflexivity.
  - rewrite S', A2, L2. simpl. rewrite F3. simpl. exact E1.
  - intros t T. rewrite S', A3, L2. simpl. rewrite F3. simpl. now apply E2.
  - rewrite S', A4. exact L1.
  - rewrite S', A1, L2. simpl. rewrite F3. simpl. exact E3.
Qed.

(** C2, as the code has it. [stopRecording] has no check for an empty
    capture. With a recorder in place and the recording flag set, a press
    of the stop button always builds a payload from the chunks at hand and
    hands it to [processAudio]; with no chunk of positive size the payload
    is empty and is processed like any other, so a draft is produced
    whenever the two services accept it. Whatever the outcome, the
    recording flag is cleared, the timer is cleared and forgotten, and the
    tracks of the recorder's stream are stopped; the store is untouched.
    The stop button of voznote-ai/App.tsx clears the flag and the timer
    and stops the tracks in the same way. *)
Theorem stop_processes_whatever_was_captured
    (env : Env) (clock : Clock) (late : list Blob) (st : AppState)
    (r : MediaRecorder)
    (Hr : mediaRecorderRef st = Some r) (Hrec : isRecording st = true) :
  let st3 := deliver late (App.stopRecording st) in
  let payload := newBlob (audioChunksRef st3) (orWebm (mimeTypeRef st)) in
  let st' := fst (App.stopAndProcess env clock late st) in
  App.stopAndProcess env clock late st
    = (afterRun (outcomeOf env payload) clock (releaseTracks st3), Ok tt)
  /\ (audioChunksRef st = [] -> nonEmptyChunks late = [] ->
        data payload = [] /\ size payload = 0%N)
  /\ (forall t s, outcomeOf env payload = Drafted t s ->
        activeNote st'
          = Some (draftNote gravacao clock (recordingDuration st) t s)
        /\ view st' = EDIT /\ alerts st' = alerts st)
  /\ isRecording st' = false
  /\ timerRef st' = None
  /\ (forall t, timerRef st = Some t -> ~ In t (intervals st'))
  /\ ~ In (stream r) (liveStreams st')
  /\ notes st' = notes st
  /\ (forall svc,
        let stv := fst (VozNoteAI.stopAndProcess svc clock late st) in
        snd (VozNoteAI.stopAndProcess svc clock late st) = Ok tt
        /\ isRecording stv = false
        /\ (forall t, timerRef st = Some t -> ~ In t (intervals stv))
        /\ ~ In (stream r) (liveStreams stv)).
Proof.
  intros st3 payload st'.
  pose proof (stopGuard_recording st r Hr Hrec) as G.
  destruct (stopRecording_chunks st) as (C1 & C2 & C3).
  destruct (stopRecording_effect st G) as (E1 & E2 & E3 & E4 & E5 & E6 & E7 & E8).
  assert (F3 : st3 = set_audioChunksRef (audioChunksRef st3) (App.stopRecording st))
    by apply deliver_frame.
  assert (R3 : mediaRecorderRef st3 = Some r) by (rewrite F3; simpl; congruence).
  destruct (releaseTracks_effect st3 r R3) as (L1 & L2).
  assert (Run : App.stopAndProcess env clock late st
                = (afterRun (outcomeOf env payload) clock (releaseTracks st3), Ok tt)).
  { unfold App.stopAndProcess. rewrite G.
    change (App.onstop env clock (deliver late (App.stopRecording st)))
      with (App.processAudio env clock
              (newBlob (audioChunksRef st3) (orWebm (mimeTypeRef st3)))
              (releaseTracks st3)).
    rewrite processAudio_run.
    replace (mimeTypeRef st3) with (mimeTypeRef st)
      by (rewrite F3; simpl; congruence).
    reflexivity. }
  assert (S' : st' = afterRun (outcomeOf env payload) clock (releaseTracks st3))
    by (unfold st'; now rewrite Run).
  destruct (afterRun_frame (outcomeOf env payload) clock (releaseTracks st3))
    as (A1 & A2 & A3 & A4 & A5 & A6 & A7 & A8).
  split; [exact Run |].
  split; [| split; [| split; [| split; [| split; [| split; [| split]]]]]].
  - intros Z N. unfold payload, st3. rewrite deliver_chunks, C1, Z, N. split; reflexivity.
  - intros t s O. rewrite S', O. simpl. rewrite L2. simpl. rewrite F3. simpl.
    rewrite E7, E8. repeat split; reflexivity.
  - rewrite S', A2, L2. simpl. rewrite F3. simpl. exact E1.
  - rewrite S', A6, L2. simpl. rewrite F3. simpl. exact E2.
  - intros t T. rewrite S', A7, L2. simpl. rewrite F3. simpl. now apply E3.
  - rewrite S', A8. exact L1.
  - rewrite S', A1, L2. simpl. rewrite F3. simpl. exact E5.
  - intros svc.
    destruct (variant_stop_processes_whatever_was_captured svc clock late st r Hr Hrec)
      as (V1 & _ & V3 & V4 & V5 & _).
    cbv zeta. rewrite V1. repeat split.
    + rewrite V1 in V3. exact V3.
    + rewrite V1 in V4. exact V4.
    + rewrite V1 in V5. exact V5.
Qed.

(** C2 as stated fails on the code. A recording is started and stopped
    with nothing delivered but a chunk of size zero; the services accept
    the empty payload: no error is raised, no alert is shown, and a draft
    note is produced and opened in the editor. *)
Lemma empty_capture_yields_a_draft :
  let st := deliver [emptyChunk] recordingState in
  let st' := fst (App.stopAndProcess helloEnv noon [] st) in
  audioChunksRef st = []
  /\ snd (App.stopAndProcess helloEnv noon [] st) = Ok tt
  /\ alerts st' = []
  /\ view st' = EDIT
  /\ activeNote st'
     = Some (draftNote gravacao noon 0%N "hello world" "Summary: hello")
  /\ statusLog st' = [TRANSCRIBING; SUMMARIZING; COMPLETED; IDLE]
  /\ ~ (activeNote st' = activeNote st /\ alerts st' <> []).
Proof.
  cbv zeta. repeat split; try reflexivity.
  intros [H _]. discriminate H.
Qed.

(** C3, as the code has it. [startRecording] has no guard on a running
    session. Whenever the microphone is granted it starts a new capture in
    whatever state it is called: the chunk buffer is emptied, the elapsed
    duration is set to 0, a new recorder replaces the one in place, a new
    timer is started beside those running, and no error is raised; the
    processing status, the store and the note under edit are left as they
    are. Only when the microphone is denied is the state left unchanged,
    but for the alert. The variant does the same. *)
Theorem startRecording_restarts_capture
    (isTypeSupported : string -> bool) (st : AppState) :
  let st' := App.startRecording isTypeSupported true st in
  audioChunksRef st' = []
  /\ recordingDuration st' = 0%N
  /\ isRecording st' = true
  /\ view st' = RECORD
  /\ (exists opts,
        mediaRecorderRef st' = Some {| stream := nextStream st; options := opts |})
  /\ timerRef st' = Some (nextTimer st)
  /\ intervals st' = nextTimer st :: intervals st
  /\ liveStreams st' = nextStream st :: liveStreams st
  /\ alerts st' = alerts st
  /\ processingStatus st' = processingStatus st
  /\ statusLog st' = statusLog st
  /\ notes st' = notes st
  /\ activeNote st' = activeNote st
  /\ App.startRecording isTypeSupported false st = alert MicrophoneAlert st
  /\ audioChunksRef (VozNoteAI.startRecording true st) = []
  /\ recordingDuration (VozNoteAI.startRecording true st) = 0%N
  /\ alerts (VozNoteAI.startRecording true st) = alerts st
  /\ VozNoteAI.startRecording false st = alert MicrophoneAlert st.
Proof.
  cbv zeta. repeat split; try reflexivity.
  eexists. reflexivity.
Qed.

(** C3 as stated fails on the code. In a session that is capturing (one
    chunk, five seconds) and in the same session while it is transcribing,
    [startRecording] raises nothing: it empties the chunks and sets the
    duration back to 0. *)
Lemma startRecording_resets_running_session :
  isRecording capturingState = true
  /\ audioChunksRef capturingState = [chunkA]
  /\ recordingDuration capturingState = 5%N
  /\ audioChunksRef (App.startRecording webmOnly true capturingState) = []
  /\ recordingDuration (App.startRecording webmOnly true capturingState) = 0%N
  /\ alerts (App.startRecording webmOnly true capturingState) = []
  /\ processingStatus transcribingState = TRANSCRIBING
  /\ audioChunksRef transcribingState = [chunkA]
  /\ recordingDuration transcribingState = 5%N
  /\ audioChunksRef (App.startRecording webmOnly true transcribingState) = []
  /\ recordingDuration (App.startRecording webmOnly true transcribingState) = 0%N
  /\ alerts (App.startRecording webmOnly true transcribingState) = []
  /\ App.startRecording webmOnly true transcribingState <> transcribingState.
Proof.
  repeat split; try reflexivity.
  intros H. apply (f_equal recordingDuration) in H. discriminate H.
Qed.

(* ===================================================================== *)
(** ** Loading the notes at start                                         *)
(* ===================================================================== *)

(** In App.tsx the load is best effort: with nothing saved, with the
    empty text or with a text [JSON.parse] rejects, it leaves the state as
    it is, the empty collection of a fresh component, and throws nothing. *)
Lemma App_loadNotes_best_effort
    (JSON_parse : string -> option (list Note)) (saved : option string)
    (st : AppState) :
  saved = None \/ saved = Some ""
  \/ (exists s, saved = Some s /\ JSON_parse s = None) ->
  App.loadNotes JSON_parse saved st = (st, Ok tt)
  /\ notes (fst (App.loadNotes JSON_parse saved initialState)) = [].
Proof.
  intros [-> | [-> | (s & -> & E)]]; simpl; try (split; reflexivity).
  destruct (JS.truthy s); rewrite ?E; split; reflexivity.
Qed.

(** With nothing saved the variants leave the state as it is too. *)
Lemma variant_loadNotes_absent
    (JSON_parse : string -> option (list Note)) (st : AppState) :
  VozNoteAI.loadNotes JSON_parse None st = (st, Ok tt)
  /\ VozNoteAI1.loadNotes JSON_parse None st = (st, Ok tt).
Proof. split; reflexivity. Qed.

(** C6 on the two variants. With a nonempty saved text that [JSON.parse]
    rejects, the load effect of voznote-ai/App.tsx and of
    voznote-ai (1)/App.tsx throws the parser's error, where the effect of
    App.tsx, which wraps the call in [try], goes on with the empty
    collection. *)
Theorem variant_loadNotes_throws_on_corrupt_input
    (JSON_parse : string -> option (list Note)) (s : string) (st : AppState)
    (Hs : JS.truthy s = true) (Hcorrupt : JSON_parse s = None) :
  VozNoteAI.loadNotes JSON_parse (Some s) st = (st, Throw JsonSyntaxError)
  /\ VozNoteAI1.loadNotes JSON_parse (Some s) st = (st, Throw JsonSyntaxError)
  /\ App.loadNotes JSON_parse (Some s) st = (st, Ok tt).
Proof.
  unfold VozNoteAI.loadNotes, VozNoteAI1.loadNotes, App.loadNotes.
  rewrite Hs, Hcorrupt. repeat split; reflexivity.
Qed.

Lemma variant_loadNotes_throws_at_open_brace :
  VozNoteAI.loadNotes parseEmptyArrayOnly (Some "{") initialState
    = (initialState, Throw JsonSyntaxError)
  /\ VozNoteAI1.loadNotes parseEmptyArrayOnly (Some "{") initialState
    = (initialState, Throw JsonSyntaxError)
  /\ App.loadNotes parseEmptyArrayOnly (Some "{") initialState
    = (initialState, Ok tt).
Proof.
  exact (variant_loadNotes_throws_on_corrupt_input
           parseEmptyArrayOnly "{" initialState eq_refl eq_refl).
Defined.

(* ===================================================================== *)
(** ** The service wrappers                                               *)
(* ===================================================================== *)

Lemma textOrEmpty_none (r : Response) : text r = None -> textOrEmpty r = "".
Proof. unfold textOrEmpty. now intros ->. Qed.

(** C10. When the call succeeds and the response carries no text,
    [transcribeAudio] and [summarizeText], in services/ai.ts and in
    geminiService.ts alike, return the empty string; in general they
    return the response's text, or the empty string in its place. A run of
    [processAudio] puts a draft under edit exactly when the key is set and
    both calls return,
    and the draft's transcription and summary are the two strings
    returned; otherwise the note under edit is left as it was. *)
Theorem no_text_gives_empty_string
    (env : Env) (clock : Clock) (blob : Blob) (txt : string) (st : AppState) :
  (forall b64 resp,
      blobToBase64 env blob = Ok b64 ->
      generateContent env (API_KEY env)
        (TranscribeRequest (orWebm (type blob)) b64) = Ok resp ->
      (keyMissing (API_KEY env) = false ->
         Ai.transcribeAudio env blob = Ok (textOrEmpty resp))
      /\ GeminiService.transcribeAudio env blob = Ok (textOrEmpty resp))
  /\ (forall resp,
        generateContent env (API_KEY env) (SummarizeRequest txt) = Ok resp ->
        (keyMissing (API_KEY env) = false ->
           Ai.summarizeText env txt = Ok (textOrEmpty resp))
        /\ GeminiService.summarizeText env txt = Ok (textOrEmpty resp))
  /\ (forall resp, text resp = None -> textOrEmpty resp = "")
  /\ match outcomeOf env blob with
     | Drafted t s =>
         Ai.transcribeAudio env blob = Ok t
         /\ Ai.summarizeText env t = Ok s
         /\ activeNote (fst (App.processAudio env clock blob st))
            = Some (draftNote gravacao clock (recordingDuration st) t s)
         /\ transcription (draftNote gravacao clock (recordingDuration st) t s) = t
         /\ summary (draftNote gravacao clock (recordingDuration st) t s) = s
     | _ => activeNote (fst (App.processAudio env clock blob st)) = activeNote st
     end.
Proof.
  split; [| split; [| split]].
  - intros b64 resp B G. split.
    + intros K. unfold Ai.transcribeAudio. now rewrite K, B, G.
    + unfold GeminiService.transcribeAudio. now rewrite B, G.
  - intros resp G. split.
    + intros K. unfold Ai.summarizeText. now rewrite K, G.
    + unfold GeminiService.summarizeText. now rewrite G.
  - apply textOrEmpty_none.
  - rewrite processAudio_run. unfold outcomeOf.
    destruct (keyMissing (API_KEY env)); [reflexivity|].
    destruct (Ai.transcribeAudio env blob) as [t | e] eqn:T; [| reflexivity].
    destruct (Ai.summarizeText env t) as [s | e] eqn:S; [| reflexivity].
    repeat split; first [reflexivity | assumption].
Qed.

(** With a Gemini that answers without text, a recording of one chunk
    gives a draft whose transcription and summary are empty strings. *)
Lemma silent_service_gives_empty_draft :
  Ai.transcribeAudio silentEnv chunkA = Ok ""
  /\ Ai.summarizeText silentEnv "" = Ok ""
  /\ GeminiService.transcribeAudio silentEnv chunkA = Ok ""
  /\ GeminiService.summarizeText silentEnv "" = Ok ""
  /\ activeNote (fst (App.processAudio silentEnv noon chunkA recordingState))
     = Some (draftNote gravacao noon 0%N "" "").
Proof.
  pose proof (no_text_gives_empty_string silentEnv noon chunkA "" recordingState)
    as (T & S & _ & D).
  destruct (T "AAAA" {| text := None |} eq_refl eq_refl) as (T1 & T2).
  destruct (S {| text := None |} eq_refl) as (S1 & S2).
  split; [exact (T1 eq_refl) | split; [exact (S1 eq_refl) |]].
  split; [exact T2 | split; [exact S2 |]].
  exact (proj1 (proj2 (proj2 D))).
Defined.

(* ===================================================================== *)
(** ** The properties at sample inputs                                    *)
(* ===================================================================== *)

(** Three chunks, the second of size zero, one of them late: the payload
    is the five bytes of the other two, typed as the recorder was. *)
Example payload_of_three_chunks :
  let st := deliver [chunkB] (App.stopRecording
              (deliver [chunkA; emptyChunk] recordingState)) in
  newBlob (audioChunksRef st) (orWebm (mimeTypeRef st))
  = {| data := [Byte.x01; Byte.x02; Byte.x03; Byte.x04; Byte.x05];
       type := "audio/webm" |}.
Proof. reflexivity. Qed.

Example formatTime_samples :
  formatTime 0 = "00:00" /\ formatTime 65 = "01:05"
  /\ formatTime 3599 = "59:59" /\ formatTime 360000 = "6000:00".
Proof. repeat split; reflexivity. Qed.

Example toLowerChar_latin1 :
  JS.toLowerChar (ascii_of_N 201) = ascii_of_N 233
  /\ JS.toLowerChar (ascii_of_N 215) = ascii_of_N 215
  /\ JS.toLowerChar (ascii_of_N 223) = ascii_of_N 223.
Proof. repeat split; reflexivity. Qed.

Example trim_samples :
  JS.trim "  billing " = "billing" /\ JS.trim "   " = ""
  /\ JS.toLowerCase "Weekly SYNC" = "weekly sync".
Proof. repeat split; reflexivity. Qed.

(** Saving "Weekly Sync" while "Standup" and an older "Weekly Sync" are
    in the store. *)
Lemma saveNote_at_sample_store :
  notes (App.saveNote (App.saveNote
           (set_activeNote (Some weeklySync)
              (set_notes [standup; sampleNote "1" "Old" "" []] initialState))))
  = [standup; weeklySync].
Proof.
  exact (proj1 (proj2 (proj2
    (saveNote_insert_or_replace
       (set_activeNote (Some weeklySync)
          (set_notes [standup; sampleNote "1" "Old" "" []] initialState))
       weeklySync eq_refl)))).
Defined.

(** Adding " x " twice to a note without tags. *)
Lemma addTag_twice_at_sample_note :
  activeTags
    (App.addTag (set_tagInput " x "
       (App.addTag (set_tagInput " x "
          (set_activeNote (Some standup) initialState)))))
  = ["x"].
Proof.
  exact (proj1 (proj2 (proj2
    (addTag_unchanged_or_appended
       (set_tagInput " x " (set_activeNote (Some standup) initialState))
       standup eq_refl)))
    eq_refl eq_refl).
Defined.

(** Stopping a capture without chunks with a transcription that is
    refused: the microphone is released all the same. *)
Lemma stop_releases_microphone_on_failure :
  isRecording (fst (App.stopAndProcess refusingEnv noon [] recordingState)) = false
  /\ ~ In 1 (liveStreams (fst (App.stopAndProcess refusingEnv noon [] recordingState))).
Proof.
  pose proof (stop_processes_whatever_was_captured refusingEnv noon [] recordingState
                {| stream := 1; options := Some "audio/webm" |} eq_refl eq_refl)
    as (_ & _ & _ & R & _ & _ & L & _).
  split; [exact R | exact L].
Defined.

(* ===================================================================== *)
(** ** The note store: lookup, deletion, unique ids                       *)
(* ===================================================================== *)

Lemma filter_all_in {A : Type} (f : A -> bool) (l : list A) :
  (forall x, In x l -> f x = true) -> List.filter f l = l.
Proof.
  induction l as [|x l IH]; simpl; intros H; [reflexivity|].
  rewrite (H x (or_introl eq_refl)). f_equal. apply IH.
  intros y Hy. apply H. now right.
Qed.

Lemma find_absent_after_filter (a : Note) (l : list Note) :
  List.find (fun n => String.eqb (id n) (id a))
    (List.filter (fun n => negb (String.eqb (id n) (id a))) l) = None.
Proof.
  induction l as [|n l IH]; simpl; [reflexivity|].
  destruct (String.eqb (id n) (id a)) eqn:E; simpl; [exact IH|].
  now rewrite E.
Qed.

(** X1. After [saveNote], looking the saved id up in the store, the way
    [saveNote] itself does, finds the saved note: whether the note was
    replaced or put in front, the first note with that id is the one
    saved. *)
Theorem saveNote_then_find
    (st : AppState) (a : Note) (Ha : activeNote st = Some a) :
  List.find (fun n => String.eqb (id n) (id a)) (notes (App.saveNote st)) = Some a
  /\ In a (notes (App.saveNote st))
  /\ view (App.saveNote st) = LIST
  /\ activeNote (App.saveNote st) = Some a.
Proof.
  assert (N1 : notes (App.saveNote st) = saveNote_update a (notes st))
    by (unfold App.saveNote; now rewrite Ha).
  assert (F : List.find (fun n => String.eqb (id n) (id a))
                (saveNote_update a (notes st)) = Some a).
  { unfold saveNote_update.
    destruct (List.find _ (notes st)) as [n|] eqn:E.
    - clear N1. induction (notes st) as [|m l IH]; [discriminate|].
      simpl in E |- *. destruct (String.eqb (id m) (id a)) eqn:Em.
      + now rewrite String.eqb_refl.
      + rewrite Em. now apply IH.
    - simpl. now rewrite String.eqb_refl. }
  rewrite N1. split; [exact F | split].
  - apply List.find_some in F. tauto.
  - unfold App.saveNote. rewrite Ha. split; [reflexivity | exact Ha].
Qed.

Lemma saveNote_then_find_at_sample :
  List.find (fun n => String.eqb (id n) (id weeklySync))
    (notes (App.saveNote
       (set_activeNote (Some weeklySync)
          (set_notes [standup; sampleNote "1" "Old" "" []] initialState))))
  = Some weeklySync.
Proof.
  exact (proj1 (saveNote_then_find
    (set_activeNote (Some weeklySync)
       (set_notes [standup; sampleNote "1" "Old" "" []] initialState))
    weeklySync eq_refl)).
Defined.

(** X2. A confirmed [deleteNote] removes every note that has the id of
    the note under edit and keeps the others in their order; it changes
    nothing in the store when no note has that id, and nothing at all
    when the confirmation is refused. Afterwards the id is not found. *)
Theorem deleteNote_removes_by_id
    (st : AppState) (a : Note) (Ha : activeNote st = Some a) :
  let st' := App.deleteNote true st in
  Selects (fun n => id n <> id a) (notes st) (notes st')
  /\ (forall n, In n (notes st') -> id n <> id a)
  /\ List.find (fun n => String.eqb (id n) (id a)) (notes st') = None
  /\ ((forall n, In n (notes st) -> id n <> id a) -> notes st' = notes st)
  /\ view st' = LIST
  /\ App.deleteNote false st = st.
Proof.
  cbv zeta. unfold App.deleteNote. rewrite Ha. simpl.
  split; [| split; [| split; [| split; [| split]]]]; try reflexivity.
  - apply filter_Selects. intros n.
    rewrite negb_true_iff. apply String.eqb_neq.
  - intros n H. apply filter_In in H. destruct H as [_ H].
    rewrite negb_true_iff in H. now apply String.eqb_neq.
  - apply find_absent_after_filter.
  - intros H. apply filter_all_in. intros n I.
    rewrite negb_true_iff. apply String.eqb_neq. now apply H.
Qed.

Lemma id_replace_by_id (a n : Note) : id (replace_by_id a n) = id n.
Proof.
  unfold replace_by_id. destruct (String.eqb_spec (id n) (id a)); congruence.
Qed.

Lemma NoDup_map_filter {A B : Type} (f : A -> B) (g : A -> bool) (l : list A) :
  NoDup (map f l) -> NoDup (map f (List.filter g l)).
Proof.
  induction l as [|x l IH]; simpl; intros N; [constructor|].
  inversion N as [|? ? Hx N']; subst.
  destruct (g x); simpl; [| now apply IH].
  constructor; [| now apply IH].
  intros I. apply Hx. apply in_map_iff in I. destruct I as (y & E & Hy).
  apply in_map_iff. exists y. split; [exact E|].
  apply filter_In in Hy. tauto.
Qed.

Lemma filter_other_ids_after_replace (a : Note) (l : list Note) :
  List.filter (fun n => negb (String.eqb (id n) (id a))) (map (replace_by_id a) l)
  = List.filter (fun n => negb (String.eqb (id n) (id a))) l.
Proof.
  induction l as [|n l IH]; simpl; [reflexivity|].
  rewrite id_replace_by_id, IH.
  destruct (String.eqb (id n) (id a)) eqn:E; simpl; [reflexivity|].
  unfold replace_by_id. now rewrite E.
Qed.

Lemma filter_other_ids_after_save (a : Note) (l : list Note) :
  List.filter (fun n => negb (String.eqb (id n) (id a))) (saveNote_update a l)
  = List.filter (fun n => negb (String.eqb (id n) (id a))) l.
Proof.
  unfold saveNote_update. destruct (List.find _ l).
  - apply filter_other_ids_after_replace.
  - simpl. now rewrite String.eqb_refl.
Qed.

(** X3. The ids of the store stay pairwise distinct: if no two notes of
    the store share an id, none do after [saveNote] or after
    [deleteNote]. A save over a note already there leaves the sequence of
    ids as it was. *)
Theorem store_ids_stay_unique
    (st : AppState) (a : Note) (Ha : activeNote st = Some a)
    (Hu : NoDup (map id (notes st))) :
  NoDup (map id (notes (App.saveNote st)))
  /\ (forall confirmed, NoDup (map id (notes (App.deleteNote confirmed st))))
  /\ ((exists n, In n (notes st) /\ id n = id a) ->
        map id (notes (App.saveNote st)) = map id (notes st)).
Proof.
  assert (N1 : notes (App.saveNote st) = saveNote_update a (notes st))
    by (unfold App.saveNote; now rewrite Ha).
  assert (R : map id (map (replace_by_id a) (notes st)) = map id (notes st)).
  { rewrite map_map. apply map_ext. apply id_replace_by_id. }
  split; [| split].
  - rewrite N1. unfold saveNote_update.
    destruct (List.find _ (notes st)) as [n|] eqn:F.
    + fold (replace_by_id a). now rewrite R.
    + simpl. constructor; [| exact Hu].
      intros I. apply in_map_iff in I. destruct I as (m & E & Hm).
      pose proof (List.find_none _ _ F m Hm) as X. simpl in X.
      apply String.eqb_neq in X. contradiction.
  - intros [|]; unfold App.deleteNote; rewrite Ha; simpl; [| exact Hu].
    now apply NoDup_map_filter.
  - intros P. rewrite N1, (saveNote_update_present a (notes st) P). exact R.
Qed.

Lemma store_ids_stay_unique_at_sample :
  NoDup (map id (notes (App.saveNote
    (set_activeNote (Some weeklySync) (set_notes [standup] initialState))))).
Proof.
  refine (proj1 (store_ids_stay_unique
    (set_activeNote (Some weeklySync) (set_notes [standup] initialState))
    weeklySync eq_refl _)).
  simpl. constructor; [intros [] | constructor].
Defined.

(** X4. Saving and deleting compose by id. Deleting right after a save
    leaves the store that deleting alone leaves, so a save of a new note
    followed by its deletion gives the store back; saving right after a
    deletion puts the note in front of what the deletion left. *)
Theorem saveNote_deleteNote_compose
    (st : AppState) (a : Note) (Ha : activeNote st = Some a) :
  notes (App.deleteNote true (App.saveNote st)) = notes (App.deleteNote true st)
  /\ ((forall n, In n (notes st) -> id n <> id a) ->
        notes (App.deleteNote true (App.saveNote st)) = notes st)
  /\ notes (App.saveNote (App.deleteNote true st))
     = a :: notes (App.deleteNote true st).
Proof.
  assert (S1 : App.saveNote st
               = set_view LIST (set_notes (saveNote_update a (notes st)) st))
    by (unfold App.saveNote; now rewrite Ha).
  assert (D1 : forall s, activeNote s = Some a ->
             notes (App.deleteNote true s)
             = List.filter (fun n => negb (String.eqb (id n) (id a))) (notes s)).
  { intros s Hs. unfold App.deleteNote. now rewrite Hs. }
  assert (E1 : notes (App.deleteNote true (App.saveNote st))
               = notes (App.deleteNote true st)).
  { rewrite (D1 (App.saveNote st)) by (rewrite S1; exact Ha).
    rewrite (D1 st Ha), S1. simpl. apply filter_other_ids_after_save. }
  split; [exact E1 | split].
  - intros H. rewrite E1, (D1 st Ha). apply filter_all_in. intros n I.
    rewrite negb_true_iff. apply String.eqb_neq. now apply H.
  - unfold App.saveNote at 1.
    assert (A2 : activeNote (App.deleteNote true st) = Some a)
      by (unfold App.deleteNote; rewrite Ha; exact Ha).
    rewrite A2. simpl. apply saveNote_update_absent.
    intros n I. rewrite (D1 st Ha) in I. apply filter_In in I.
    destruct I as [_ I]. rewrite negb_true_iff in I. now apply String.eqb_neq.
Qed.

Lemma saveNote_deleteNote_at_sample :
  notes (App.deleteNote true (App.saveNote
    (set_activeNote (Some weeklySync) (set_notes [standup] initialState))))
  = [standup].
Proof.
  refine (proj1 (proj2 (saveNote_deleteNote_compose
    (set_activeNote (Some weeklySync) (set_notes [standup] initialState))
    weeklySync eq_refl)) _).
  intros n [<- | []]. discriminate.
Defined.

Lemma deleteNote_at_sample :
  List.find (fun n => String.eqb (id n) (id weeklySync))
    (notes (App.deleteNote true
       (set_activeNote (Some weeklySync)
          (set_notes [standup; weeklySync] initialState))))
  = None.
Proof.
  exact (proj1 (proj2 (proj2 (deleteNote_removes_by_id
    (set_activeNote (Some weeklySync) (set_notes [standup; weeklySync] initialState))
    weeklySync eq_refl)))).
Defined.

(* ===================================================================== *)
(** ** Tags: removal                                                      *)
(* ===================================================================== *)

(** X5. [removeTag] takes the tag out of the note under edit and keeps
    the other tags in their order, the rest of the note and the tag field
    being left alone. Removing a tag right after [addTag] appended it
    gives the tags back. *)
Theorem removeTag_removes_tag
    (st : AppState) (a : Note) (tag : string) (Ha : activeNote st = Some a) :
  Selects (fun t => t <> tag) (tags a) (activeTags (App.removeTag tag st))
  /\ ~ In tag (activeTags (App.removeTag tag st))
  /\ activeNote (App.removeTag tag st)
     = Some (with_tags a (activeTags (App.removeTag tag st)))
  /\ tagInput (App.removeTag tag st) = tagInput st
  /\ notes (App.removeTag tag st) = notes st
  /\ (whitespaceOnly (tagInput st) = false ->
      ~ In (JS.trim (tagInput st)) (tags a) ->
      activeTags (App.removeTag (JS.trim (tagInput st)) (App.addTag st)) = tags a).
Proof.
  assert (R : forall s b, activeNote s = Some b ->
            activeTags (App.removeTag tag s)
            = List.filter (fun t => negb (String.eqb t tag)) (tags b)).
  { intros s b Hs. unfold App.removeTag, activeTags. now rewrite Hs. }
  split; [| split; [| split; [| split; [| split]]]].
  - rewrite (R st a Ha). apply filter_Selects. intros t.
    rewrite negb_true_iff. apply String.eqb_neq.
  - rewrite (R st a Ha). intros I. apply filter_In in I. destruct I as [_ I].
    now rewrite String.eqb_refl in I.
  - rewrite (R st a Ha). unfold App.removeTag. now rewrite Ha.
  - unfold App.removeTag. now rewrite Ha.
  - unfold App.removeTag. now rewrite Ha.
  - intros W I.
    assert (T : JS.truthy (JS.trim (tagInput st)) = true).
    { unfold JS.truthy.
      destruct (String.eqb_spec (JS.trim (tagInput st)) "") as [Z | _]; [| reflexivity].
      apply trim_empty_iff in Z. congruence. }
    assert (X : List.existsb (String.eqb (JS.trim (tagInput st))) (tags a) = false).
    { destruct (List.existsb _ (tags a)) eqn:E; [| reflexivity].
      apply existsb_eqb_In in E. contradiction. }
    unfold App.addTag. rewrite Ha, T, X. simpl.
    unfold App.removeTag, activeTags. simpl.
    rewrite filter_app. simpl. rewrite String.eqb_refl. simpl.
    rewrite app_nil_r. apply filter_all_in. intros t It.
    rewrite negb_true_iff. apply String.eqb_neq. intros ->. contradiction.
Qed.

Lemma removeTag_at_sample :
  ~ In "billing" (activeTags (App.removeTag "billing"
                    (set_activeNote (Some weeklySync) initialState))).
Proof.
  exact (proj1 (proj2 (removeTag_removes_tag
    (set_activeNote (Some weeklySync) initialState) weeklySync "billing" eq_refl))).
Defined.

(* ===================================================================== *)
(** ** The encoding chosen at start                                       *)
(* ===================================================================== *)



(* ===================================================================== *)
(** ** The timer                                                          *)
(* ===================================================================== *)

(** Chunks and ticks change the chunk buffer, the duration and the alerts
    only. *)
Lemma runCapture_frame (events : list CaptureEvent) (st : AppState) :
  runCapture events st
  = set_alerts (alerts (runCapture events st))
      (set_recordingDuration (recordingDuration (runCapture events st))
         (set_audioChunksRef (audioChunksRef (runCapture events st)) st)).
Proof.
  unfold runCapture. revert st.
  induction events as [|e events IH]; intros st; simpl.
  - now destruct st.
  - rewrite IH at 1. destruct e as [c | t]; simpl.
    + unfold ondataavailable. destruct (0 <? size c)%N; reflexivity.
    + unfold App.tick. destruct (List.existsb _ _); [| reflexivity].
      destruct (_ =? 3600)%N; reflexivity.
Qed.

Lemma runCapture_chunks (events : list CaptureEvent) (st : AppState) :
  audioChunksRef (runCapture events st)
  = (audioChunksRef st ++ nonEmptyChunks (chunksOf events))%list.
Proof.
  unfold runCapture. revert st.
  induction events as [|e events IH]; intros st; simpl.
  - now rewrite app_nil_r.
  - rewrite IH. destruct e as [c | t]; simpl.
    + unfold ondataavailable.
      destruct (0 <? size c)%N; simpl; [now rewrite <- app_assoc | reflexivity].
    + unfold App.tick. destruct (List.existsb _ _); [| reflexivity].
      destruct (_ =? 3600)%N; reflexivity.
Qed.

Lemma existsb_eqb_single (t u : nat) : List.existsb (Nat.eqb u) [t] = Nat.eqb u t.
Proof. simpl. apply orb_false_r. Qed.

Lemma longRecordingAlerts_alert (st : AppState) :
  longRecordingAlerts (alert LongRecordingAlert st) = S (longRecordingAlerts st).
Proof.
  unfold longRecordingAlerts, alert. simpl.
  rewrite filter_app, length_app. simpl. lia.
Qed.

(** With the one interval [t] running, the duration is the number of its
    firings, and the warning is shown once the count has passed 3600. *)
Lemma runCapture_single_timer (t : nat) (events : list CaptureEvent) :
  forall st,
    intervals st = [t] ->
    recordingDuration (runCapture events st)
    = (recordingDuration st + N.of_nat (secondsOf t events))%N
    /\ longRecordingAlerts (runCapture events st)
       = longRecordingAlerts st
         + (if ((recordingDuration st <? 3600)
                && (3600 <=? recordingDuration st + N.of_nat (secondsOf t events)))%N
            then 1 else 0).
Proof.
  unfold runCapture.
  induction events as [|e events IH]; intros st I; simpl.
  - rewrite N.add_0_r.
    destruct (N.ltb_spec (recordingDuration st) 3600);
      destruct (N.leb_spec 3600 (recordingDuration st)); simpl; try lia; auto.
  - destruct e as [c | u]; simpl.
    + assert (I' : intervals (ondataavailable c st) = [t])
        by (unfold ondataavailable; destruct (0 <? size c)%N; exact I).
      destruct (IH _ I') as [D L].
      assert (E1 : recordingDuration (ondataavailable c st) = recordingDuration st)
        by (unfold ondataavailable; destruct (0 <? size c)%N; reflexivity).
      assert (E2 : longRecordingAlerts (ondataavailable c st) = longRecordingAlerts st)
        by (unfold ondataavailable; destruct (0 <? size c)%N; reflexivity).
      rewrite D, L, E1, E2. split; reflexivity.
    + unfold App.tick. rewrite I, existsb_eqb_single.
      destruct (Nat.eqb u t) eqn:U.
      * set (d := recordingDuration st) in *.
        destruct (N.eqb_spec (d + 1) 3600) as [H | H].
        -- destruct (IH (alert LongRecordingAlert (set_recordingDuration (d + 1)%N st)) I)
             as [D L].
           rewrite D, L. simpl recordingDuration.
           rewrite longRecordingAlerts_alert.
           change (longRecordingAlerts (set_recordingDuration (d + 1)%N st))
             with (longRecordingAlerts st).
           split; [lia|].
           assert (A : (d + 1 <? 3600)%N = false) by (apply N.ltb_ge; lia).
           assert (B1 : (d <? 3600)%N = true) by (apply N.ltb_lt; lia).
           assert (B2 : (3600 <=? d + N.of_nat (1 + secondsOf t events))%N = true)
             by (apply N.leb_le; lia).
           rewrite A, B1, B2. cbn [andb]. lia.
        -- destruct (IH (set_recordingDuration (d + 1)%N st) I) as [D L].
           rewrite D, L. simpl recordingDuration.
           change (longRecordingAlerts (set_recordingDuration (d + 1)%N st))
             with (longRecordingAlerts st).
           split; [lia|].
           replace (d + 1 + N.of_nat (secondsOf t events))%N
             with (d + N.of_nat (1 + secondsOf t events))%N by lia.
           destruct (N.ltb_spec (d + 1) 3600); destruct (N.ltb_spec d 3600);
             simpl; try lia; reflexivity.
      * destruct (IH st I) as [D L]. rewrite D, L. split; reflexivity.
Qed.

Lemma existsb_after_clear (t : nat) (l : list nat) :
  List.existsb (Nat.eqb t) (List.filter (fun u => negb (Nat.eqb u t)) l) = false.
Proof.
  induction l as [|u l IH]; simpl; [reflexivity|].
  destruct (Nat.eqb u t) eqn:E; simpl; [exact IH|].
  rewrite Nat.eqb_sym, E. exact IH.
Qed.

(** A firing of the interval [stopRecording] cleared changes nothing. *)
Lemma tick_after_stopRecording (t : nat) (st : AppState) :
  stopGuard st = true -> timerRef st = Some t ->
  App.tick t (App.stopRecording st) = App.stopRecording st.
Proof.
  intros G T. unfold App.stopRecording. rewrite G. simpl. rewrite T.
  unfold App.tick, clearInterval. simpl. now rewrite existsb_after_clear.
Qed.

Lemma timer_counts_from (t : nat) (events : list CaptureEvent) (st1 st : AppState) :
  st = runCapture events st1 ->
  intervals st1 = [t] -> recordingDuration st1 = 0%N ->
  timerRef st1 = Some t -> stopGuard st1 = true ->
  recordingDuration st = N.of_nat (secondsOf t events)
  /\ longRecordingAlerts st
     = longRecordingAlerts st1
       + (if (3600 <=? N.of_nat (secondsOf t events))%N then 1 else 0)
  /\ stopGuard st = true
  /\ intervals st = [t]
  /\ App.tick t (App.stopRecording st) = App.stopRecording st.
Proof.
  intros E I1 D1 T1 G1.
  destruct (runCapture_single_timer t events st1 I1) as [D L].
  pose proof (runCapture_frame events st1) as F.
  rewrite <- E in D, L, F. clear E.
  assert (G : stopGuard st = true) by (rewrite F; unfold stopGuard; simpl; exact G1).
  assert (T : timerRef st = Some t) by (rewrite F; simpl; exact T1).
  split; [| split; [| split; [| split]]].
  - rewrite D, D1. apply N.add_0_l.
  - rewrite L, D1, N.add_0_l. reflexivity.
  - exact G.
  - rewrite F. simpl. exact I1.
  - now apply tick_after_stopRecording.
Qed.

(** X7. From [startRecording] on, with the timer [startRecording] set up
    as the one interval running, the elapsed duration is the number of
    times the interval fired; the sixty-minute warning is shown exactly
    once, when the count reaches 3600, and the timer goes on counting.
    Once [stopRecording] has cleared the interval, its firings change
    nothing. *)
Theorem timer_counts_seconds
    (isTypeSupported : string -> bool) (st0 : AppState) (events : list CaptureEvent)
    (Hidle : intervals st0 = []) :
  let t := nextTimer st0 in
  let st := runCapture events (App.startRecording isTypeSupported true st0) in
  recordingDuration st = N.of_nat (secondsOf t events)
  /\ longRecordingAlerts st
     = longRecordingAlerts st0
       + (if (3600 <=? N.of_nat (secondsOf t events))%N then 1 else 0)
  /\ isRecording st = true
  /\ intervals st = [t]
  /\ App.tick t (App.stopRecording st) = App.stopRecording st.
Proof.
  cbv zeta.
  destruct (timer_counts_from (nextTimer st0) events
              (App.startRecording isTypeSupported true st0)
              (runCapture events (App.startRecording isTypeSupported true st0))
              eq_refl) as (D & L & G & I & K);
    try reflexivity.
  - simpl. now rewrite Hidle.
  - split; [exact D | split; [exact L | split; [| split; [exact I | exact K]]]].
    unfold stopGuard in G.
    destruct (mediaRecorderRef _); [exact G | discriminate].
Qed.

Lemma timer_counts_seconds_at_sample :
  recordingDuration
    (runCapture [Second 1; Chunk chunkA; Second 1; Second 7]
       (App.startRecording webmOnly true initialState)) = 2%N.
Proof.
  exact (proj1 (timer_counts_seconds webmOnly initialState
                  [Second 1; Chunk chunkA; Second 1; Second 7] eq_refl)).
Defined.

(* ===================================================================== *)
(** ** A whole session                                                    *)
(* ===================================================================== *)

Lemma nonEmptyChunks_app (a b : list Blob) :
  nonEmptyChunks (a ++ b) = (nonEmptyChunks a ++ nonEmptyChunks b)%list.
Proof. unfold nonEmptyChunks. apply filter_app. Qed.

(** Chunks and ticks leave the rest of the state alone. *)
Lemma runCapture_keeps (events : list CaptureEvent) (st : AppState) :
  let s := runCapture events st in
  notes s = notes st /\ activeNote s = activeNote st /\ view s = view st
  /\ isRecording s = isRecording st /\ mediaRecorderRef s = mediaRecorderRef st
  /\ timerRef s = timerRef st /\ mimeTypeRef s = mimeTypeRef st
  /\ intervals s = intervals st /\ liveStreams s = liveStreams st
  /\ processingStatus s = processingStatus st.
Proof.
  cbv zeta. rewrite (runCapture_frame events st). simpl.
  repeat split; reflexivity.
Qed.

(** The stop button, pressed while recording, run to the end. *)
Lemma stopAndProcess_run (env : Env) (clock : Clock) (late : list Blob)
    (st : AppState) :
  stopGuard st = true ->
  App.stopAndProcess env clock late st
  = (afterRun
       (outcomeOf env
          (newBlob (audioChunksRef st ++ nonEmptyChunks late)
             (orWebm (mimeTypeRef st))))
       clock (releaseTracks (deliver late (App.stopRecording st))),
     Ok tt).
Proof.
  intros G. unfold App.stopAndProcess. rewrite G.
  change (App.onstop env clock (deliver late (App.stopRecording st)))
    with (App.processAudio env clock
            (newBlob (audioChunksRef (deliver late (App.stopRecording st)))
               (orWebm (mimeTypeRef (deliver late (App.stopRecording st)))))
            (releaseTracks (deliver late (App.stopRecording st)))).
  rewrite processAudio_run, deliver_chunks.
  destruct (stopRecording_chunks st) as (-> & M & _).
  rewrite (deliver_frame late (App.stopRecording st)). simpl. now rewrite M.
Qed.

(** The state [processAudio] starts from after the stop button. *)
Lemma stopped_state (late : list Blob) (st : AppState) (r : MediaRecorder) (t : nat) :
  mediaRecorderRef st = Some r -> isRecording st = true -> timerRef st = Some t ->
  let s := releaseTracks (deliver late (App.stopRecording st)) in
  notes s = notes st /\ activeNote s = activeNote st /\ alerts s = alerts st
  /\ recordingDuration s = recordingDuration st
  /\ isRecording s = false
  /\ intervals s = List.filter (fun u => negb (Nat.eqb u t)) (intervals st)
  /\ liveStreams s
     = List.filter (fun u => negb (Nat.eqb u (stream r))) (liveStreams st).
Proof.
  intros Hr Hrec Ht. cbv zeta.
  rewrite (deliver_frame late (App.stopRecording st)).
  unfold App.stopRecording, stopGuard, releaseTracks. rewrite Hr, Hrec. simpl.
  rewrite Ht. simpl. rewrite Hr. simpl. repeat split; reflexivity.
Qed.

(** What a run leaves of the note under edit, the screen and the alerts. *)
Lemma afterRun_report (o : Outcome) (clock : Clock) (st : AppState) :
  match o with
  | Drafted tr sm =>
      activeNote (afterRun o clock st)
        = Some (draftNote gravacao clock (recordingDuration st) tr sm)
      /\ view (afterRun o clock st) = EDIT
      /\ alerts (afterRun o clock st) = alerts st
  | FailedTranscribing e | FailedSummarizing _ e =>
      activeNote (afterRun o clock st) = activeNote st
      /\ view (afterRun o clock st) = LIST
      /\ alerts (afterRun o clock st) = (alerts st ++ [ProcessingAlert e])%list
  end.
Proof. destruct o; simpl; repeat split; reflexivity. Qed.

(** X8. A session from the list screen to the editor. A recording is
    started with no timer running, chunks and seconds arrive in any
    order, the stop button is pressed and the last chunks arrive. What is
    processed is the concatenation of the chunks of positive size, tagged
    with the type chosen at start. When both calls succeed the draft under
    edit carries the two texts and, as its duration, the number of seconds
    the timer counted; when one fails, the note under edit is the one
    there was before, the list screen is shown and one alert carries the
    error. Either way the store is as before, the recording flag is
    cleared, no timer is left running and the stream is released. *)
Theorem session_from_start_to_draft
    (isTypeSupported : string -> bool) (env : Env) (clock : Clock)
    (st0 : AppState) (events : list CaptureEvent) (late : list Blob)
    (Hidle : intervals st0 = []) :
  let t := nextTimer st0 in
  let st2 := runCapture events (App.startRecording isTypeSupported true st0) in
  let payload :=
    newBlob (nonEmptyChunks (chunksOf events ++ late))
      (orWebm (App.getSupportedMimeType isTypeSupported)) in
  let st' := fst (App.stopAndProcess env clock late st2) in
  match outcomeOf env payload with
  | Drafted tr sm =>
      activeNote st'
        = Some (draftNote gravacao clock (N.of_nat (secondsOf t events)) tr sm)
      /\ view st' = EDIT /\ alerts st' = alerts st2
  | FailedTranscribing e | FailedSummarizing _ e =>
      activeNote st' = activeNote st0
      /\ view st' = LIST
      /\ alerts st' = (alerts st2 ++ [ProcessingAlert e])%list
  end
  /\ notes st' = notes st0
  /\ isRecording st' = false
  /\ intervals st' = []
  /\ ~ In (nextStream st0) (liveStreams st')
  /\ processingStatus st' = IDLE.
Proof.
  cbv zeta.
  set (m := App.getSupportedMimeType isTypeSupported).
  pose (r := {| stream := nextStream st0;
                options := if JS.truthy m then Some m else None |}).
  destruct (timer_counts_from (nextTimer st0) events
              (App.startRecording isTypeSupported true st0)
              (runCapture events (App.startRecording isTypeSupported true st0))
              eq_refl) as (D & _ & G & I & _);
    [simpl; now rewrite Hidle | reflexivity | reflexivity | reflexivity |].
  destruct (runCapture_keeps events (App.startRecording isTypeSupported true st0))
    as (K1 & K2 & K3 & K4 & K5 & K6 & K7 & K8 & K9 & K10).
  pose proof (runCapture_chunks events (App.startRecording isTypeSupported true st0))
    as C.
  change (audioChunksRef (App.startRecording isTypeSupported true st0))
    with (@nil Blob) in C. rewrite app_nil_l in C.
  rewrite (stopAndProcess_run env clock late _ G). cbn [fst].
  rewrite C, <- nonEmptyChunks_app, K7.
  change (mimeTypeRef (App.startRecording isTypeSupported true st0)) with m.
  set (payload := newBlob (nonEmptyChunks (chunksOf events ++ late)) (orWebm m)).
  destruct (stopped_state late
              (runCapture events (App.startRecording isTypeSupported true st0))
              r (nextTimer st0))
    as (S1 & S2 & S3 & S4 & S5 & S6 & S7);
    [rewrite K5; reflexivity | rewrite K4; reflexivity | rewrite K6; reflexivity |].
  set (X := releaseTracks (deliver late (App.stopRecording
                (runCapture events (App.startRecording isTypeSupported true st0)))))
    in *.
  destruct (afterRun_frame (outcomeOf env payload) clock X)
    as (A1 & A2 & _ & _ & _ & _ & A7 & A8).
  pose proof (afterRun_report (outcomeOf env payload) clock X) as R.
  split; [| split; [| split; [| split; [| split]]]].
  - destruct (outcomeOf env payload) as [tr sm | e | tr e];
      destruct R as (R1 & R2 & R3); rewrite R1, R2, R3.
    + rewrite S4, S3, D. repeat split; reflexivity.
    + rewrite S2, S3, K2. repeat split; reflexivity.
    + rewrite S2, S3, K2. repeat split; reflexivity.
  - rewrite A1, S1, K1. reflexivity.
  - rewrite A2. exact S5.
  - rewrite A7, S6, I. simpl. now rewrite Nat.eqb_refl.
  - rewrite A8, S7. intros H. apply filter_In in H. destruct H as [_ H].
    simpl in H. now rewrite Nat.eqb_refl in H.
  - apply afterRun_statuses.
Qed.

Lemma session_from_start_to_draft_at_sample :
  notes (fst (App.stopAndProcess helloEnv noon [chunkB]
                (runCapture [Chunk chunkA; Second 1; Second 1]
                   (App.startRecording webmOnly true initialState))))
  = [].
Proof.
  exact (proj1 (proj2 (session_from_start_to_draft webmOnly helloEnv noon
                         initialState [Chunk chunkA; Second 1; Second 1] [chunkB]
                         eq_refl))).
Defined.

Example session_sample_draft :
  activeNote (fst (App.stopAndProcess helloEnv noon [chunkB]
                     (runCapture [Chunk chunkA; Second 1; Second 1]
                        (App.startRecording webmOnly true initialState))))
  = Some {| id := "1793534400000"; title := gravacao ++ "12:00";
            date := "01/11/2026"; durationFormatted := "00:02";
            transcription := "hello world"; summary := "Summary: hello";
            tags := [] |}.
Proof. reflexivity. Qed.

(* ===================================================================== *)
(** ** What a run reports                                                 *)
(* ===================================================================== *)

(** X9. A run of [processAudio], in App.tsx and in voznote-ai/App.tsx,
    never writes to the store. When it fails it shows one alert, with the
    error of the call that failed, goes to the list screen and leaves the
    note under edit as it was, so neither a draft nor the transcript
    already obtained is kept. When it succeeds it shows no alert and opens
    the editor on a draft without tags, whose id and date are the clock's
    and whose duration is the formatted counter. *)
Theorem run_reports_and_keeps_store
    (env : Env) (svc : Services) (clock : Clock) (blob : Blob) (st : AppState) :
  let st' := fst (App.processAudio env clock blob st) in
  let stv := fst (VozNoteAI.processAudio svc clock blob st) in
  notes st' = notes st
  /\ notes stv = notes st
  /\ match outcomeOf env blob with
     | Drafted tr sm =>
         alerts st' = alerts st /\ view st' = EDIT
         /\ exists d, activeNote st' = Some d
              /\ tags d = [] /\ id d = nowString clock /\ date d = dateString clock
              /\ durationFormatted d = formatTime (recordingDuration st)
              /\ transcription d = tr /\ summary d = sm
     | FailedTranscribing e | FailedSummarizing _ e =>
         alerts st' = (alerts st ++ [ProcessingAlert e])%list
         /\ view st' = LIST /\ activeNote st' = activeNote st
     end
  /\ match outcomeWith svc blob with
     | Drafted tr sm =>
         alerts stv = alerts st /\ view stv = EDIT
         /\ exists d, activeNote stv = Some d
              /\ tags d = [] /\ id d = nowString clock
              /\ durationFormatted d = formatTime (recordingDuration st)
              /\ transcription d = tr /\ summary d = sm
     | FailedTranscribing e | FailedSummarizing _ e =>
         alerts stv = (alerts st ++ [ProcessingAlert e])%list
         /\ view stv = LIST /\ activeNote stv = activeNote st
     end.
Proof.
  cbv zeta. rewrite processAudio_run, variant_processAudio_run. simpl.
  split; [| split; [| split]].
  - apply afterRun_frame.
  - apply afterVariantRun_frame.
  - destruct (outcomeOf env blob); simpl; repeat split; try reflexivity.
    eexists. repeat split; reflexivity.
  - destruct (outcomeWith svc blob); simpl; repeat split; try reflexivity.
    eexists. repeat split; reflexivity.
Qed.

(* ===================================================================== *)
(** ** Errors of the service wrappers                                     *)
(* ===================================================================== *)

(** X10. What the wrappers throw. [transcribeAudio] of services/ai.ts
    throws its generic failure, or passes on a collaborator's error whose
    message names API_KEY; its own missing-key error does not name it and
    so comes out as the generic failure. [summarizeText] and both
    functions of geminiService.ts throw their generic failure whatever
    went wrong. With the key missing, neither wrapper of services/ai.ts
    consults the reader or Gemini, and [processAudio] reports the missing
    key itself before calling them. *)
Theorem wrappers_rewrap_errors (env : Env) (blob : Blob) (txt : string) :
  (forall e, Ai.transcribeAudio env blob = Throw e ->
     e = TranscriptionFailed
     \/ (message_includes_API_KEY e = true
         /\ (blobToBase64 env blob = Throw e
             \/ exists b64,
                  generateContent env (API_KEY env)
                    (TranscribeRequest (orWebm (type blob)) b64) = Throw e)))
  /\ (forall e, Ai.summarizeText env txt = Throw e -> e = SummarizationFailed)
  /\ (forall e, GeminiService.transcribeAudio env blob = Throw e ->
        e = TranscriptionFailed)
  /\ (forall e, GeminiService.summarizeText env txt = Throw e ->
        e = SummarizationFailed)
  /\ (keyMissing (API_KEY env) = true ->
        Ai.transcribeAudio env blob = Throw TranscriptionFailed
        /\ Ai.summarizeText env txt = Throw SummarizationFailed
        /\ outcomeOf env blob = FailedTranscribing KeyMissingApp).
Proof.
  split; [| split; [| split; [| split]]].
  - intros e. unfold Ai.transcribeAudio.
    destruct (keyMissing (API_KEY env)); simpl.
    + intros [= <-]. now left.
    + destruct (blobToBase64 env blob) as [b64 | e1] eqn:B.
      * destruct (generateContent env (API_KEY env) _) as [resp | e2] eqn:G;
          [discriminate|].
        destruct (message_includes_API_KEY e2) eqn:K; intros [= <-].
        -- right. split; [exact K | right; now exists b64].
        -- now left.
      * destruct (message_includes_API_KEY e1) eqn:K; intros [= <-].
        -- right. split; [exact K | now left].
        -- now left.
  - intros e. unfold Ai.summarizeText.
    destruct (keyMissing (API_KEY env)); simpl; [now intros [= <-]|].
    destruct (generateContent env (API_KEY env) _); [discriminate | now intros [= <-]].
  - intros e. unfold GeminiService.transcribeAudio.
    destruct (blobToBase64 env blob); [| now intros [= <-]].
    destruct (generateContent env (API_KEY env) _); [discriminate | now intros [= <-]].
  - intros e. unfold GeminiService.summarizeText.
    destruct (generateContent env (API_KEY env) _); [discriminate | now intros [= <-]].
  - intros K. unfold Ai.transcribeAudio, Ai.summarizeText, outcomeOf.
    rewrite K. repeat split; reflexivity.
Qed.

(* ===================================================================== *)
(** ** Persistence                                                        *)
(* ===================================================================== *)

Lemma getItem_setItem (key value : string) (ls : Storage) :
  getItem (setItem key value ls) key = Some value
  /\ forall k, k <> key -> getItem (setItem key value ls) k = getItem ls k.
Proof.
  unfold getItem, setItem. split.
  - now rewrite String.eqb_refl.
  - intros k N. now rewrite (proj2 (String.eqb_neq k key) N).
Qed.

(** X11. The mount of App.tsx. The notes are those [JSON.parse] reads
    from the text under 'voznotes'; with no text, the empty text or a text
    it rejects they are the empty collection. When the mount is over, the
    text under 'voznotes' is the serialization of the notes in the state,
    so a text that could not be read has been overwritten by the
    serialization of the empty collection; no other key is written. *)
Theorem mount_loads_then_rewrites
    (JSON_parse : string -> option (list Note))
    (JSON_stringify : list Note -> string) (ls : Storage) :
  let st := fst (Persist.mount JSON_parse JSON_stringify ls) in
  let ls' := snd (Persist.mount JSON_parse JSON_stringify ls) in
  notes st
    = match getItem ls "voznotes" with
      | Some s =>
          if JS.truthy s
          then match JSON_parse s with Some ns => ns | None => [] end
          else []
      | None => []
      end
  /\ getItem ls' "voznotes" = Some (JSON_stringify (notes st))
  /\ (forall k, k <> "voznotes" -> getItem ls' k = getItem ls k)
  /\ (forall s, getItem ls "voznotes" = Some s -> JS.truthy s = true ->
        JSON_parse s = None ->
        getItem ls' "voznotes" = Some (JSON_stringify [])).
Proof.
  cbv zeta. unfold Persist.mount, Persist.saveEffect, Persist.notesKey. cbn [fst snd].
  assert (L : notes (fst (App.loadNotes JSON_parse (getItem ls "voznotes") initialState))
              = match getItem ls "voznotes" with
                | Some s =>
                    if JS.truthy s
                    then match JSON_parse s with Some ns => ns | None => [] end
                    else []
                | None => []
                end).
  { unfold App.loadNotes. destruct (getItem ls "voznotes") as [s|]; [| reflexivity].
    destruct (JS.truthy s); [| reflexivity].
    destruct (JSON_parse s); reflexivity. }
  split; [exact L | split; [| split]].
  - apply getItem_setItem.
  - intros k N.
    rewrite (proj2 (getItem_setItem "voznotes" _ _) k N).
    apply (proj2 (getItem_setItem "voznotes" _ _) k N).
  - intros s G T P. rewrite (proj1 (getItem_setItem "voznotes" _ _)), L, G, T, P.
    reflexivity.
Qed.



(* ===================================================================== *)
(** ** Search: refining a query                                           *)
(* ===================================================================== *)

Lemma includes_trans (s q' q : string) :
  JS.includes s q' = true -> JS.includes q' q = true -> JS.includes s q = true.
Proof.
  rewrite !includes_spec. intros (a & b & ->) (c & d & ->).
  exists (a ++ c), (d ++ b). now rewrite !append_assoc_str.
Qed.

Lemma filter_filter_implied {A : Type} (f g : A -> bool) (l : list A) :
  (forall x, f x = true -> g x = true) ->
  List.filter f (List.filter g l) = List.filter f l.
Proof.
  intros H. induction l as [|x l IH]; simpl; [reflexivity|].
  destruct (g x) eqn:G; simpl.
  - now rewrite IH.
  - destruct (f x) eqn:F; [| exact IH]. rewrite (H x F) in G. discriminate.
Qed.

(** X13. Refining the query narrows the search of voznote-ai/App.tsx.
    When the new query contains the old one up to case, searching the
    results of the old query gives the results of the new one, so every
    note found for the longer query was found for the shorter one; the
    results are notes of the store, and searching them again with the same
    query changes nothing. *)
Theorem filteredNotes_refines
    (store : list Note) (q q' : string)
    (Hq : containsIgnoringCase q' q) :
  VozNoteAI.filteredNotes (VozNoteAI.filteredNotes store q) q'
    = VozNoteAI.filteredNotes store q'
  /\ (forall n, In n (VozNoteAI.filteredNotes store q') ->
        In n (VozNoteAI.filteredNotes store q) /\ In n store)
  /\ VozNoteAI.filteredNotes (VozNoteAI.filteredNotes store q) q
     = VozNoteAI.filteredNotes store q.
Proof.
  apply includes_lower_spec in Hq.
  assert (I : forall s, JS.includes (JS.toLowerCase s) (JS.toLowerCase q') = true ->
              JS.includes (JS.toLowerCase s) (JS.toLowerCase q) = true)
    by (intros s H; exact (includes_trans _ _ _ H Hq)).
  assert (E : VozNoteAI.filteredNotes (VozNoteAI.filteredNotes store q) q'
              = VozNoteAI.filteredNotes store q').
  { unfold VozNoteAI.filteredNotes. apply filter_filter_implied.
    intros n. rewrite !orb_true_iff, !existsb_exists.
    intros [[H | H] | (t & Ht & H)].
    - left; left. now apply I.
    - left; right. now apply I.
    - right. exists t. split; [exact Ht | now apply I]. }
  split; [exact E | split].
  - intros n H. rewrite <- E in H.
    unfold VozNoteAI.filteredNotes in H at 1. apply filter_In in H.
    destruct H as [H _]. split; [exact H|].
    unfold VozNoteAI.filteredNotes in H. apply filter_In in H. tauto.
  - unfold VozNoteAI.filteredNotes. now apply filter_filter_implied.
Qed.

Lemma filteredNotes_refines_at_sample :
  VozNoteAI.filteredNotes (VozNoteAI.filteredNotes [weeklySync; standup] "Bi") "BILL"
  = VozNoteAI.filteredNotes [weeklySync; standup] "BILL".
Proof.
  refine (proj1 (filteredNotes_refines [weeklySync; standup] "Bi" "BILL" _)).
  exists "", "BI", "LL". split; reflexivity.
Defined.

(* ===================================================================== *)
(** ** The duration read back                                             *)
(* ===================================================================== *)

Lemma decimal_from_no_colon (s : string) :
  forall a v, decimal_from a s = Some v ->
  forall rest, splitAtColon (s ++ String ":" rest) = Some (s, rest).
Proof.
  induction s as [|c s IH]; intros a v H rest.
  - reflexivity.
  - simpl in H. destruct (digitValue c) as [d|] eqn:D; [| discriminate].
    simpl. destruct (Ascii.eqb_spec c ":") as [-> | _]; [discriminate D|].
    now rewrite (IH _ _ H rest).
Qed.

(** X14. The formatted duration can be read back: splitting
    [formatTime s] at its colon and reading the two numerals gives
    minutes and seconds with [minutes * 60 + seconds = s]. So two
    different durations are never displayed alike. *)
Theorem formatTime_reads_back (s s' : N) :
  parseDuration (formatTime s) = Some s
  /\ (formatTime s = formatTime s' -> s = s').
Proof.
  assert (P : forall x, parseDuration (formatTime x) = Some x).
  { intros x. unfold formatTime. cbv zeta. rewrite !padStart_zeroPad2.
    unfold parseDuration.
    pose proof (decimalValue_zeroPad2 (x / 60)) as M.
    pose proof (decimalValue_zeroPad2 (x mod 60)) as R.
    assert (M' : decimal_from 0 (zeroPad2 (x / 60)) = Some (x / 60)%N).
    { unfold decimalValue in M. destruct (zeroPad2 (x / 60)); [discriminate | exact M]. }
    change (":" ++ zeroPad2 (x mod 60)) with (String ":" (zeroPad2 (x mod 60))).
    rewrite (decimal_from_no_colon _ _ _ M'), M, R. f_equal.
    pose proof (N.div_mod x 60). lia. }
  split; [apply P|].
  intros E. pose proof (P s) as A. rewrite E, P in A. now injection A.
Qed.

(* ===================================================================== *)
(** ** One session at a time, through the screens                         *)
(* ===================================================================== *)







Lemma filter_single_self (t : nat) :
  List.filter (fun u => negb (Nat.eqb u t)) [t] = [].
Proof. simpl. now rewrite Nat.eqb_refl. Qed.




(* ===================================================================== *)
(** ** The exported document                                              *)
(* ===================================================================== *)





(* ===================================================================== *)
(** ** The file name and the summary of the document                      *)
(* ===================================================================== *)








Example export_file_name_sample :
  replaceWhitespace "Weekly  Sync notes" = "Weekly_Sync_notes"
  /\ stripMarkup "## Topics: *billing*" = " Topics: billing".
Proof. split; reflexivity. Qed.

(* ===================================================================== *)
(** ** The payload of a data URL                                          *)
(* ===================================================================== *)

Lemma splitOnComma_nonempty (s : string) : splitOnComma s <> [].
Proof.
  destruct s as [|c s]; simpl; [discriminate|].
  destruct (Ascii.eqb c ","); [discriminate|].
  destruct (splitOnComma s); discriminate.
Qed.

Lemma splitOnComma_clean (s : string) :
  hasComma s = false -> splitOnComma s = [s].
Proof.
  induction s as [|c s IH]; simpl; intros H; [reflexivity|].
  apply orb_false_iff in H. destruct H as [C H]. rewrite C, (IH H). reflexivity.
Qed.

Lemma splitOnComma_app (a b : string) :
  hasComma a = false -> splitOnComma (a ++ String "," b) = a :: splitOnComma b.
Proof.
  induction a as [|c a IH]; simpl; intros H; [reflexivity|].
  apply orb_false_iff in H. destruct H as [C H]. rewrite C, (IH H). reflexivity.
Qed.

(** X18. [blobToBase64] strips the prefix of the data URL. When the
    reader ends with a text made of a header without comma, a comma and a
    payload without comma, as in "data:audio/webm;base64," followed by
    base64 text, the result is the payload; when the payload has commas
    of its own, the result stops at the first of them. A text without any
    comma gives [undefined], and an error of the reader is passed on. *)
Theorem blobToBase64_strips_prefix
    (readAsDataURL : Blob -> result string) (blob : Blob)
    (header payload : string)
    (Hheader : hasComma header = false)
    (Hread : readAsDataURL blob = Ok (header ++ "," ++ payload)) :
  (hasComma payload = false ->
     blobToBase64With readAsDataURL blob = Ok (Some payload))
  /\ (forall p rest, payload = p ++ "," ++ rest -> hasComma p = false ->
        blobToBase64With readAsDataURL blob = Ok (Some p))
  /\ (forall s, hasComma s = false -> base64Data s = None)
  /\ (forall e b, readAsDataURL b = Throw e ->
        blobToBase64With readAsDataURL b = Throw e).
Proof.
  unfold blobToBase64With, base64Data.
  split; [| split; [| split]].
  - intros P. rewrite Hread.
    change (header ++ "," ++ payload) with (header ++ String "," payload).
    rewrite (splitOnComma_app header payload Hheader).
    now rewrite (splitOnComma_clean payload P).
  - intros p rest -> P. rewrite Hread.
    change (header ++ "," ++ p ++ "," ++ rest)
      with (header ++ String "," (p ++ String "," rest)).
    rewrite (splitOnComma_app header _ Hheader).
    now rewrite (splitOnComma_app p rest P).
  - intros s C. now rewrite (splitOnComma_clean s C).
  - intros e b E. now rewrite E.
Qed.

Lemma blobToBase64_at_sample :
  blobToBase64With (fun _ => Ok "data:audio/webm;base64,AAAA") chunkA
  = Ok (Some "AAAA").
Proof.
  exact (proj1 (blobToBase64_strips_prefix
                  (fun _ => Ok "data:audio/webm;base64,AAAA") chunkA
                  "data:audio/webm;base64" "AAAA" eq_refl eq_refl) eq_refl).
Defined.

(* ===================================================================== *)
(** ** A second start before the stop                                     *)
(* ===================================================================== *)

(** X19. What [startRecording] leaves behind when it is called again
    before the stop. The second call installs a second timer and a second
    stream beside the first; the stop button then clears the timer and
    stops the stream of the second call only, so the first timer keeps
    running and the first stream stays live after the session, and while
    both timers run each second counts twice. *)
Theorem second_start_leaves_first_running
    (isTypeSupported : string -> bool) (env : Env) (clock : Clock) (st0 : AppState)
    (Hi : intervals st0 = []) (Hl : liveStreams st0 = []) :
  let t1 := nextTimer st0 in
  let st2 := App.startRecording isTypeSupported true
               (App.startRecording isTypeSupported true st0) in
  let st' := fst (App.stopAndProcess env clock [] st2) in
  intervals st2 = [S t1; t1]
  /\ liveStreams st2 = [S (nextStream st0); nextStream st0]
  /\ recordingDuration (App.tick t1 (App.tick (S t1) st2)) = 2%N
  /\ isRecording st' = false
  /\ intervals st' = [t1]
  /\ liveStreams st' = [nextStream st0].
Proof.
  cbv zeta.
  assert (I2 : intervals (App.startRecording isTypeSupported true
                            (App.startRecording isTypeSupported true st0))
               = [S (nextTimer st0); nextTimer st0])
    by (simpl; now rewrite Hi).
  assert (L2 : liveStreams (App.startRecording isTypeSupported true
                              (App.startRecording isTypeSupported true st0))
               = [S (nextStream st0); nextStream st0])
    by (simpl; now rewrite Hl).
  assert (N1 : forall n, Nat.eqb n (S n) = false)
    by (intros n; apply Nat.eqb_neq; lia).
  split; [exact I2 | split; [exact L2 | split]].
  - unfold App.tick. rewrite I2. simpl. rewrite Nat.eqb_refl. simpl.
    rewrite Hi. simpl. rewrite Nat.eqb_refl, orb_true_r. reflexivity.
  - assert (G : stopGuard (App.startRecording isTypeSupported true
                             (App.startRecording isTypeSupported true st0)) = true)
      by reflexivity.
    rewrite (stopAndProcess_run env clock [] _ G). cbn [fst].
    destruct (stopped_state []
                (App.startRecording isTypeSupported true
                   (App.startRecording isTypeSupported true st0))
                {| stream := S (nextStream st0);
                   options := if JS.truthy (App.getSupportedMimeType isTypeSupported)
                              then Some (App.getSupportedMimeType isTypeSupported)
                              else None |}
                (S (nextTimer st0)) eq_refl eq_refl eq_refl)
      as (_ & _ & _ & _ & S5 & S6 & S7).
    match goal with
    | |- isRecording (afterRun ?o ?c ?X) = _ /\ _ =>
        destruct (afterRun_frame o c X) as (_ & A2 & _ & _ & _ & _ & A7 & A8)
    end.
    rewrite A2, A7, A8, S5, S6, S7, I2, L2. simpl.
    rewrite !Nat.eqb_refl, !N1. repeat split; reflexivity.
Qed.

Lemma second_start_at_sample :
  intervals (fst (App.stopAndProcess helloEnv noon []
                    (App.startRecording webmOnly true
                       (App.startRecording webmOnly true initialState)))) = [1].
Proof.
  exact (proj1 (proj2 (proj2 (proj2 (proj2
    (second_start_leaves_first_running webmOnly helloEnv noon initialState
       eq_refl eq_refl)))))).
Defined.

(* ===================================================================== *)
(** ** A whole session in voznote-ai/App.tsx                              *)
(* ===================================================================== *)

Lemma variantRunCapture_frame (events : list CaptureEvent) (st : AppState) :
  variantRunCapture events st
  = set_recordingDuration (recordingDuration (variantRunCapture events st))
      (set_audioChunksRef (audioChunksRef (variantRunCapture events st)) st).
Proof.
  unfold variantRunCapture. revert st.
  induction events as [|e events IH]; intros st; simpl.
  - now destruct st.
  - rewrite IH at 1. destruct e as [c | t]; simpl.
    + unfold ondataavailable. destruct (0 <? size c)%N; reflexivity.
    + unfold VozNoteAI.tick. destruct (List.existsb _ _); reflexivity.
Qed.

Lemma variantRunCapture_chunks (events : list CaptureEvent) (st : AppState) :
  audioChunksRef (variantRunCapture events st)
  = (audioChunksRef st ++ nonEmptyChunks (chunksOf events))%list.
Proof.
  unfold variantRunCapture. revert st.
  induction events as [|e events IH]; intros st; simpl.
  - now rewrite app_nil_r.
  - rewrite IH. destruct e as [c | t]; simpl.
    + unfold ondataavailable.
      destruct (0 <? size c)%N; simpl; [now rewrite <- app_assoc | reflexivity].
    + unfold VozNoteAI.tick. destruct (List.existsb _ _); reflexivity.
Qed.

Lemma variantRunCapture_seconds (t : nat) (events : list CaptureEvent) :
  forall st, intervals st = [t] ->
  recordingDuration (variantRunCapture events st)
  = (recordingDuration st + N.of_nat (secondsOf t events))%N.
Proof.
  unfold variantRunCapture.
  induction events as [|e events IH]; intros st I; simpl; [lia|].
  destruct e as [c | u]; simpl.
  - rewrite IH by (unfold ondataavailable; destruct (0 <? size c)%N; exact I).
    unfold ondataavailable. destruct (0 <? size c)%N; reflexivity.
  - unfold VozNoteAI.tick. rewrite I, existsb_eqb_single.
    destruct (Nat.eqb u t).
    + rewrite (IH (set_recordingDuration (recordingDuration st + 1) st) I).
      simpl recordingDuration. lia.
    + rewrite (IH _ I). reflexivity.
Qed.

Lemma variant_stopAndProcess_run (svc : Services) (clock : Clock)
    (late : list Blob) (st : AppState) :
  stopGuard st = true ->
  VozNoteAI.stopAndProcess svc clock late st
  = (afterVariantRun
       (outcomeWith svc
          (newBlob (audioChunksRef st ++ nonEmptyChunks late) "audio/webm"))
       clock (releaseTracks (deliver late (VozNoteAI.stopRecording st))),
     Ok tt).
Proof.
  intros G. unfold VozNoteAI.stopAndProcess. rewrite G.
  change (VozNoteAI.onstop svc clock (deliver late (VozNoteAI.stopRecording st)))
    with (VozNoteAI.processAudio svc clock
            (newBlob (audioChunksRef (deliver late (VozNoteAI.stopRecording st)))
               "audio/webm")
            (releaseTracks (deliver late (VozNoteAI.stopRecording st)))).
  rewrite variant_processAudio_run, deliver_chunks.
  destruct (variant_stopRecording_effect st G) as (_ & _ & _ & _ & ->).
  reflexivity.
Qed.

Lemma variant_stopped_state (late : list Blob) (st : AppState)
    (r : MediaRecorder) (t : nat) :
  mediaRecorderRef st = Some r -> isRecording st = true -> timerRef st = Some t ->
  let s := releaseTracks (deliver late (VozNoteAI.stopRecording st)) in
  notes s = notes st /\ activeNote s = activeNote st /\ alerts s = alerts st
  /\ recordingDuration s = recordingDuration st
  /\ isRecording s = false
  /\ timerRef s = Some t
  /\ intervals s = List.filter (fun u => negb (Nat.eqb u t)) (intervals st)
  /\ liveStreams s
     = List.filter (fun u => negb (Nat.eqb u (stream r))) (liveStreams st).
Proof.
  intros Hr Hrec Ht. cbv zeta.
  rewrite (deliver_frame late (VozNoteAI.stopRecording st)).
  unfold VozNoteAI.stopRecording, stopGuard, releaseTracks. rewrite Hr, Hrec. simpl.
  rewrite Ht. simpl. rewrite Hr. simpl. repeat split; try reflexivity. exact Ht.
Qed.

Lemma afterVariantRun_report (o : Outcome) (clock : Clock) (st : AppState) :
  timerRef (afterVariantRun o clock st) = timerRef st
  /\ match o with
     | Drafted tr sm =>
         activeNote (afterVariantRun o clock st)
           = Some (draftNote "Nota de " clock (recordingDuration st) tr sm)
         /\ view (afterVariantRun o clock st) = EDIT
         /\ alerts (afterVariantRun o clock st) = alerts st
     | FailedTranscribing e | FailedSummarizing _ e =>
         activeNote (afterVariantRun o clock st) = activeNote st
         /\ view (afterVariantRun o clock st) = LIST
         /\ alerts (afterVariantRun o clock st)
            = (alerts st ++ [ProcessingAlert e])%list
     end.
Proof. destruct o; simpl; repeat split; reflexivity. Qed.

(** X20. A session of voznote-ai/App.tsx. Its timer counts the seconds
    and shows no warning, however long the recording. The payload is the
    concatenation of the chunks of positive size and is always declared
    'audio/webm'. On success the draft is titled "Nota de " and the time,
    with the counted seconds as its duration; on failure one alert carries
    the error and the note under edit is the one there was. Either way the
    store is untouched, the recording flag and the timer are cleared and
    the stream is released, while [timerRef] keeps the identifier of the
    cleared timer. *)
Theorem variant_session_from_start_to_draft
    (svc : Services) (clock : Clock) (st0 : AppState)
    (events : list CaptureEvent) (late : list Blob)
    (Hidle : intervals st0 = []) :
  let t := nextTimer st0 in
  let st2 := variantRunCapture events (VozNoteAI.startRecording true st0) in
  let payload := newBlob (nonEmptyChunks (chunksOf events ++ late)) "audio/webm" in
  let st' := fst (VozNoteAI.stopAndProcess svc clock late st2) in
  recordingDuration st2 = N.of_nat (secondsOf t events)
  /\ alerts st2 = alerts st0
  /\ match outcomeWith svc payload with
     | Drafted tr sm =>
         activeNote st'
           = Some (draftNote "Nota de " clock (N.of_nat (secondsOf t events)) tr sm)
         /\ view st' = EDIT /\ alerts st' = alerts st0
     | FailedTranscribing e | FailedSummarizing _ e =>
         activeNote st' = activeNote st0
         /\ view st' = LIST
         /\ alerts st' = (alerts st0 ++ [ProcessingAlert e])%list
     end
  /\ notes st' = notes st0
  /\ isRecording st' = false
  /\ intervals st' = []
  /\ ~ In (nextStream st0) (liveStreams st')
  /\ timerRef st' = Some t.
Proof.
  cbv zeta.
  pose proof (variantRunCapture_frame events (VozNoteAI.startRecording true st0)) as F.
  pose proof (variantRunCapture_chunks events (VozNoteAI.startRecording true st0)) as C.
  change (audioChunksRef (VozNoteAI.startRecording true st0)) with (@nil Blob) in C.
  rewrite app_nil_l in C.
  assert (D : recordingDuration
                (variantRunCapture events (VozNoteAI.startRecording true st0))
              = N.of_nat (secondsOf (nextTimer st0) events)).
  { rewrite (variantRunCapture_seconds (nextTimer st0) events)
      by (simpl; now rewrite Hidle).
    reflexivity. }
  set (st2 := variantRunCapture events (VozNoteAI.startRecording true st0)) in *.
  assert (K : alerts st2 = alerts st0 /\ notes st2 = notes st0
              /\ activeNote st2 = activeNote st0
              /\ intervals st2 = [nextTimer st0]
              /\ liveStreams st2 = nextStream st0 :: liveStreams st0
              /\ stopGuard st2 = true)
    by (rewrite F; simpl; rewrite Hidle; repeat split; reflexivity).
  destruct K as (K1 & K2 & K3 & K4 & K5 & G).
  destruct (variant_stopped_state late st2
              {| stream := nextStream st0; options := None |} (nextTimer st0))
    as (S1 & S2 & S3 & S4 & S5 & S6 & S7 & S8);
    try (rewrite F; reflexivity).
  clearbody st2.
  rewrite (variant_stopAndProcess_run svc clock late st2 G). cbn [fst].
  rewrite C, <- nonEmptyChunks_app.
  set (payload := newBlob (nonEmptyChunks (chunksOf events ++ late)) "audio/webm").
  set (X := releaseTracks (deliver late (VozNoteAI.stopRecording st2))) in *.
  destruct (afterVariantRun_frame (outcomeWith svc payload) clock X)
    as (A1 & A2 & A3 & A4).
  destruct (afterVariantRun_report (outcomeWith svc payload) clock X) as (T & R).
  split; [exact D | split; [exact K1 | split; [| split; [| split; [| split; [| split]]]]]].
  - destruct (outcomeWith svc payload) as [tr sm | e | tr e];
      destruct R as (R1 & R2 & R3); rewrite R1, R2, R3.
    + rewrite S4, S3, D, K1. repeat split; reflexivity.
    + rewrite S2, S3, K3, K1. repeat split; reflexivity.
    + rewrite S2, S3, K3, K1. repeat split; reflexivity.
  - rewrite A1, S1. exact K2.
  - rewrite A2. exact S5.
  - rewrite A3, S7, K4. apply filter_single_self.
  - rewrite A4, S8, K5. intros H. apply filter_In in H. destruct H as [_ H].
    simpl in H. now rewrite Nat.eqb_refl in H.
  - rewrite T. exact S6.
Qed.

Lemma variant_session_at_sample :
  recordingDuration
    (variantRunCapture [Second 1; Chunk chunkA; Second 1]
       (VozNoteAI.startRecording true initialState)) = 2%N.
Proof.
  exact (proj1 (variant_session_from_start_to_draft helloServices noon initialState
                  [Second 1; Chunk chunkA; Second 1] [] eq_refl)).
Defined.
